(** * CosyVoiceTTSModel: a shallow embedding of
      modules/core/models/tts/CosyVoiceModel.py

    The orchestrator is stateful Python: class attributes shared by all
    instances (the loaded model and front-end), instance attributes, an
    external result cache, a global random generator and calls into a
    neural engine.  It is embedded as state passing in a small
    state-and-exception monad.  Every external effect is also recorded
    in a trace, so that statements such as "no inference runs" or
    "load() is not invoked" can be read off the final state.

    Conventions.
    - Python [str] is [string], holding the UTF-8 encoding of the text.
      UTF-8 is self-synchronising, so equality and the substring test on
      the encodings agree with the ones on code points.
    - Audio samples and embedding coordinates (float32 in the source) are
      idealised as rationals.  No statement below depends on rounding.
    - A tensor of shape (1, n) is its single row; [unsqueeze(0)] and
      [squeeze()] are the identity on that representation and
      [torch.concat(.., dim=1)] is list concatenation. *)

From Stdlib Require Import QArith Qabs.
From stdpp Require Import base option list strings gmap.

Local Open Scope string_scope.
Local Open Scope list_scope.

(** ** Python exceptions *)

Record exn := Raise { exn_class : string; exn_msg : string }.

Definition ValueError (msg : string) : exn := Raise "ValueError" msg.
Definition AttributeError (msg : string) : exn := Raise "AttributeError" msg.
Definition IndexError (msg : string) : exn := Raise "IndexError" msg.
Definition RuntimeError (msg : string) : exn := Raise "RuntimeError" msg.
Definition StopIteration : exn := Raise "StopIteration" "".

(** ** Python string operations used by the source *)

(** [needle in hay] on [str]. *)
Fixpoint str_in (needle hay : string) : bool :=
  String.prefix needle hay ||
  match hay with
  | EmptyString => false
  | String _ hay' => str_in needle hay'
  end.

(** [a or b] on [str]: the empty string is the only falsy one. *)
Definition str_or (a b : string) : string :=
  match a with
  | EmptyString => b
  | _ => a
  end.

(** Truthiness of a [str]. *)
Definition str_truthy (s : string) : bool :=
  match s with
  | EmptyString => false
  | _ => true
  end.

(** ** Data model (modules.core.spk, modules.core.pipeline.dcls) *)

Definition Wave := list Q.
Definition Tensor := list Q.

(** Token record of a speaker for one model: [embedding] is a list of
    vectors.  A token record is a plain object, hence truthy. *)
Record DcSpkVoiceToken := { embedding : list Tensor }.

Record DcSpkReference := {
  wav : list Byte.byte;
  wav_sr : Z;
  text : string;
  emotion : string;
}.

Record TTSSpeaker := {
  gender : string;
  token : gmap string DcSpkVoiceToken;
  refs : list DcSpkReference;
}.

(** Modelled from the spec: [TTSSpeaker.get_token] is not part of the
    source file.  The speaker holds "per-model conditioning tokens:
    mapping from model-id to token record" and the accessor is
    [get_token(model_id) -> optional ConditioningToken]. *)
Definition get_token (spk : TTSSpeaker) (model_id : string)
  : option DcSpkVoiceToken :=
  token spk !! model_id.

(** Modelled from the spec: [TTSSpeaker.get_ref] is not part of the
    source file.  The accessor is
    [get_ref(predicate) -> optional ReferenceClip] over the speaker's
    "reference-audio clips: collection keyed/filterable by emotion tag";
    it yields the first clip the predicate accepts, and nothing when no
    clip is accepted. *)
Definition get_ref (spk : TTSSpeaker) (p : DcSpkReference -> bool)
  : option DcSpkReference :=
  List.find p (refs spk).

Record TTSSegment := {
  seg_text : string;
  seg_spk : option TTSSpeaker;
  seg_emotion : string;
  seg_prompt2 : string;
  seg_infer_seed : Z;
  seg_temperature : Q;
  seg_top_p : Q;
  seg_top_k : Z;
}.

(** [context.stop] is a boolean shared with the caller, who may set it
    while the batch runs.  The executor reads it once per loop
    iteration; [ctx_stop c i] is the value it reads once [i] segments of
    the running batch have been synthesized.  [ctx_id] stands for the
    rest of the context. *)
Record TTSPipelineContext := {
  ctx_id : string;
  ctx_stop : nat -> bool;
}.

Definition NP_AUDIO : Type := Z * Wave.

(** ** Module constants *)

Definition max_val : Q := 8 # 10.
Definition prompt_sr : Z := 16000%Z.
Definition target_sr : Z := 16000%Z.

(** [model_id] as set by [super().__init__("cosy-voice")]. *)
Definition model_id : string := "cosy-voice".

(** ** Speaker conditioning *)

(** [x or y] on optional token records. *)
Definition tok_or (a b : option DcSpkVoiceToken) : option DcSpkVoiceToken :=
  match a with
  | Some t => Some t
  | None => b
  end.

Definition spk_to_embedding (spk : TTSSpeaker) : option Tensor :=
  let token_cfg :=
    tok_or (tok_or (get_token spk model_id)
                   (get_token spk "cosyvoice_300m_instruct"))
           (get_token spk "cosyvoice_instruct") in
  match token_cfg with
  | None => None
  | Some cfg =>
      match embedding cfg with
      | e0 :: _ => Some e0
      | [] => None
      end
  end.

(** The gendered prefix and the instruct text of lines 264-269. *)
Definition is_female (g : string) : bool :=
  String.eqb g "female" || str_in "女" g.

Definition instruct_text_of (emotion prompt2 g : string) : string :=
  let instruct_text := str_or (str_or emotion prompt2) "" in
  if is_female g
  then "female voice. " ++ instruct_text
  else "male voice. " ++ instruct_text.

(** ** The loaded engine (modules.repos_static.cosyvoice, CosyVoiceFE)

    Objects carry an identity [*_id], allocated when the object is
    constructed: two handles are the same object exactly when the records
    are equal. *)

Record CosyVoiceFrontEnd := {
  fe_id : nat;
  instruct : bool;
  fe_device : string;
}.

Record CosyVoiceModel := {
  m_id : nat;
  m_device : string;
  m_dtype : string;
}.

(** The four inference operations of the class. *)
Inductive Strategy := SFT | ZeroShot | CrossLingual | Instruct.

(** What the orchestrator does to the outside world, in program order. *)
Inductive Event :=
| EvLoad
| EvReadConfig (path : string)
| EvFrontEndInit (dir : string)
| EvModelLoadWeights (dir : string)
| EvToDevice (part device dtype : string)
| EvTorchGC
| EvFrontend (s : Strategy) (tts_text : string)
| EvModelInference
| EvSetCache (key : string) (value : list NP_AUDIO).

(** [functools.partial] of one of the four inference methods: the method
    and the keyword arguments bound to it; [tts_texts] is supplied at the
    call. *)
Inductive InferFunc :=
| PartialSft (spk_embedding : Tensor)
| PartialZeroShot (prompt_text : string) (prompt_speech_16k : Tensor)
| PartialCrossLingual (prompt_speech_16k : Tensor)
| PartialInstruct (spk_embedding : Tensor) (instruct_text : string).

Definition strategy_of (f : InferFunc) : Strategy :=
  match f with
  | PartialSft _ => SFT
  | PartialZeroShot _ _ => ZeroShot
  | PartialCrossLingual _ => CrossLingual
  | PartialInstruct _ _ => Instruct
  end.

(** The spec's names for the errors the source raises as [ValueError]. *)
Definition ConditioningError (e : exn) : Prop :=
  e = ValueError "spk is None" \/ e = ValueError "spk_embedding is None".

Definition UnsupportedModeError (model_dir : string) (e : exn) : Prop :=
  e = ValueError (model_dir ++ " do not support cross_lingual inference") \/
  e = ValueError (model_dir ++ " do not support instruct inference").

(** ** The monad: state passing with Python exceptions.  A raised
    exception keeps the state reached so far. *)

Definition M (S A : Type) : Type := S -> (exn + A) * S.

Definition ret {S A} (a : A) : M S A := fun st => (inr a, st).

Definition bind {S A B} (c : M S A) (k : A -> M S B) : M S B :=
  fun st =>
    match c st with
    | (inl e, st') => (inl e, st')
    | (inr a, st') => k a st'
    end.

Definition raise {S A} (e : exn) : M S A := fun st => (inl e, st).

Definition get {S} : M S S := fun st => (inr st, st).

Definition modify {S} (f : S -> S) : M S unit := fun st => (inr tt, f st).

Definition lift {S A} (r : exn + A) : M S A := fun st => (r, st).

Notation "x <- c1 ;; c2" := (bind c1 (fun x => c2))
  (at level 100, c1 at next level, right associativity).
Notation "c1 ;;; c2" := (bind c1 (fun _ => c2))
  (at level 100, right associativity).

Set Implicit Arguments.

Section Orchestrator.

(** Types owned by collaborators: the parsed configuration, the model
    input a front-end method builds, the state of the random generators. *)
Variables Configs ModelInput RngState : Type.

(** Collaborators outside the source file.  The file system, the
    front-end, the model and the two audio helpers may raise; the device
    transfers and the reclamation hook of [load] are taken to return
    normally, and the constructors not to draw from the global random
    generator. *)
Record Externals := {
  path_exists : string -> bool;
  read_config : string -> exn + Configs;
  frontend_init : Configs -> string -> option exn;
  model_load : Configs -> string -> option exn;
  frontend_sft : CosyVoiceFrontEnd -> string -> Tensor -> exn + ModelInput;
  frontend_zero_shot :
    CosyVoiceFrontEnd -> string -> string -> Tensor -> exn + ModelInput;
  frontend_cross_lingual :
    CosyVoiceFrontEnd -> string -> Tensor -> exn + ModelInput;
  frontend_instruct :
    CosyVoiceFrontEnd -> string -> Tensor -> string -> exn + ModelInput;
  model_inference :
    CosyVoiceModel -> RngState -> ModelInput -> (exn + Tensor) * RngState;
  manual_seed : Z -> RngState;
  bytes_to_librosa_array : list Byte.byte -> Z -> exn + Wave;
  normalize_audio : Z * Wave -> Z -> exn + Z * Wave;
  librosa_trim : Wave -> Q -> Z -> Z -> Wave * (Z * Z);
  cache_key : list TTSSegment -> TTSPipelineContext -> string;
}.

Variable ext : Externals.

(** Class attributes of [CosyVoiceTTSModel] (shared by every instance),
    the attributes of the instance [self], and the environment. *)
Record State := {
  cls_model : option CosyVoiceModel;
  cls_frontend : option CosyVoiceFrontEnd;
  self_model : option CosyVoiceModel;
  self_frontend : option CosyVoiceFrontEnd;
  model_dir : string;
  device : string;
  dtype : string;
  cache : gmap string (list NP_AUDIO);
  rng : RngState;
  next_id : nat;
  trace : list Event;
}.

Definition set_cls (m : option CosyVoiceModel) (f : option CosyVoiceFrontEnd)
  (st : State) : State :=
  {| cls_model := m; cls_frontend := f;
     self_model := self_model st; self_frontend := self_frontend st;
     model_dir := model_dir st; device := device st; dtype := dtype st;
     cache := cache st; rng := rng st; next_id := next_id st;
     trace := trace st |}.

Definition set_self_model (m : option CosyVoiceModel) (st : State) : State :=
  {| cls_model := cls_model st; cls_frontend := cls_frontend st;
     self_model := m; self_frontend := self_frontend st;
     model_dir := model_dir st; device := device st; dtype := dtype st;
     cache := cache st; rng := rng st; next_id := next_id st;
     trace := trace st |}.

Definition set_self_frontend (f : option CosyVoiceFrontEnd) (st : State)
  : State :=
  {| cls_model := cls_model st; cls_frontend := cls_frontend st;
     self_model := self_model st; self_frontend := f;
     model_dir := model_dir st; device := device st; dtype := dtype st;
     cache := cache st; rng := rng st; next_id := next_id st;
     trace := trace st |}.

Definition set_cache_map (c : gmap string (list NP_AUDIO)) (st : State)
  : State :=
  {| cls_model := cls_model st; cls_frontend := cls_frontend st;
     self_model := self_model st; self_frontend := self_frontend st;
     model_dir := model_dir st; device := device st; dtype := dtype st;
     cache := c; rng := rng st; next_id := next_id st;
     trace := trace st |}.

Definition set_rng (g : RngState) (st : State) : State :=
  {| cls_model := cls_model st; cls_frontend := cls_frontend st;
     self_model := self_model st; self_frontend := self_frontend st;
     model_dir := model_dir st; device := device st; dtype := dtype st;
     cache := cache st; rng := g; next_id := next_id st;
     trace := trace st |}.

Definition set_next_id (n : nat) (st : State) : State :=
  {| cls_model := cls_model st; cls_frontend := cls_frontend st;
     self_model := self_model st; self_frontend := self_frontend st;
     model_dir := model_dir st; device := device st; dtype := dtype st;
     cache := cache st; rng := rng st; next_id := n;
     trace := trace st |}.

Definition set_trace (t : list Event) (st : State) : State :=
  {| cls_model := cls_model st; cls_frontend := cls_frontend st;
     self_model := self_model st; self_frontend := self_frontend st;
     model_dir := model_dir st; device := device st; dtype := dtype st;
     cache := cache st; rng := rng st; next_id := next_id st;
     trace := t |}.

Definition log (ev : Event) : M State unit :=
  modify (fun st => set_trace (trace st ++ [ev]) st).

(** ** The constructor: [__init__] probes the candidate directories and
    snapshots the class attributes. *)

Definition candidate_paths : list string :=
  [ "models/CosyVoice_300M";
    "models/CosyVoice_300M_Instruct";
    "models/CosyVoice_300M_SFT" ].

Definition init_model_dir : string :=
  match List.filter (path_exists ext) candidate_paths with
  | [] => "models/CosyVoice_300M"
  | p :: _ => p
  end.

Definition init (dev dt : string) : M State unit :=
  modify (fun st =>
    {| cls_model := cls_model st; cls_frontend := cls_frontend st;
       self_model := cls_model st; self_frontend := cls_frontend st;
       model_dir := init_model_dir; device := dev; dtype := dt;
       cache := cache st; rng := rng st; next_id := next_id st;
       trace := trace st |}).

Definition is_loaded : M State bool :=
  st <- get ;; ret (bool_decide (is_Some (cls_model st))).

(** ** Model lifecycle.  [load_lock] is taken on entry and released on
    every exit; with one thread of control it has no other effect. *)

Definition fresh_id : M State nat :=
  st <- get ;;
  modify (set_next_id (S (next_id st))) ;;;
  ret (next_id st).

Definition opt_raise (o : option exn) : M State unit :=
  match o with
  | Some e => raise e
  | None => ret tt
  end.

Definition load : M State (CosyVoiceModel * option CosyVoiceFrontEnd) :=
  log EvLoad ;;;
  st <- get ;;
  match cls_model st with
  | Some m => ret (m, cls_frontend st)
  | None =>
      let device := device st in
      let dtype := dtype st in
      let model_dir := model_dir st in
      log (EvReadConfig (model_dir ++ "/cosyvoice.yaml")) ;;;
      configs <- lift (read_config ext (model_dir ++ "/cosyvoice.yaml")) ;;
      log (EvFrontEndInit model_dir) ;;;
      opt_raise (frontend_init ext configs model_dir) ;;;
      fid <- fresh_id ;;
      let frontend :=
        {| fe_id := fid; instruct := true; fe_device := device |} in
      modify (set_self_frontend (Some frontend)) ;;;
      mid <- fresh_id ;;
      let model :=
        {| m_id := mid; m_device := device; m_dtype := dtype |} in
      log (EvModelLoadWeights model_dir) ;;;
      opt_raise (model_load ext configs model_dir) ;;;
      log (EvToDevice "llm" device dtype) ;;;
      log (EvToDevice "flow" device dtype) ;;;
      log (EvToDevice "hift" device dtype) ;;;
      modify (set_self_model (Some model)) ;;;
      log EvTorchGC ;;;
      modify (set_cls (Some model) (Some frontend)) ;;;
      ret (model, Some frontend)
  end.

Definition unload : M State unit :=
  st <- get ;;
  match cls_model st with
  | None => ret tt
  | Some _ =>
      modify (set_self_model None) ;;;
      modify (set_self_frontend None) ;;;
      modify (set_cls None None) ;;;
      log EvTorchGC
  end.

(** ** The four inference operations *)

(** [self.frontend.<attr>] and [self.model.inference]: attribute access
    on [None] raises. *)
Definition self_frontend_attr (attr : string) : M State CosyVoiceFrontEnd :=
  st <- get ;;
  match self_frontend st with
  | Some fe => ret fe
  | None =>
      raise (AttributeError
               ("'NoneType' object has no attribute '" ++ attr ++ "'"))
  end.

Definition self_model_inference (model_input : ModelInput) : M State Tensor :=
  st <- get ;;
  match self_model st with
  | None =>
      raise (AttributeError "'NoneType' object has no attribute 'inference'")
  | Some m =>
      log EvModelInference ;;;
      let '(out, g) := model_inference ext m (rng st) model_input in
      modify (set_rng g) ;;;
      lift out
  end.

(** The loop the four methods share: one front-end call and one model
    call per text, outputs collected in order. *)
Fixpoint synth_texts (s : Strategy) (attr : string)
    (frontend_call : CosyVoiceFrontEnd -> string -> exn + ModelInput)
    (tts_texts : list string) : M State (list Tensor) :=
  match tts_texts with
  | [] => ret []
  | text :: rest =>
      fe <- self_frontend_attr attr ;;
      log (EvFrontend s text) ;;;
      model_input <- lift (frontend_call fe text) ;;
      model_output <- self_model_inference model_input ;;
      tts_speeches <- synth_texts s attr frontend_call rest ;;
      ret (model_output :: tts_speeches)
  end.

(** [torch.concat(tts_speeches, dim=1)]: an empty list is rejected. *)
Definition torch_concat (tts_speeches : list Tensor) : M State Tensor :=
  match tts_speeches with
  | [] => raise (RuntimeError "torch.cat(): expected a non-empty list of Tensors")
  | _ => ret (List.concat tts_speeches)
  end.

Definition inference_sft (tts_texts : list string) (spk_embedding : Tensor)
  : M State Tensor :=
  tts_speeches <-
    synth_texts SFT "frontend_sft"
      (fun fe text => frontend_sft ext fe text spk_embedding) tts_texts ;;
  torch_concat tts_speeches.

Definition inference_zero_shot (tts_texts : list string)
    (prompt_text : string) (prompt_speech_16k : Tensor) : M State Tensor :=
  tts_speeches <-
    synth_texts ZeroShot "frontend_zero_shot"
      (fun fe text =>
         frontend_zero_shot ext fe text prompt_text prompt_speech_16k)
      tts_texts ;;
  torch_concat tts_speeches.

Definition inference_cross_lingual (tts_texts : list string)
    (prompt_speech_16k : Tensor) : M State Tensor :=
  fe <- self_frontend_attr "instruct" ;;
  st <- get ;;
  if instruct fe
  then raise (ValueError
                (model_dir st ++ " do not support cross_lingual inference"))
  else
    tts_speeches <-
      synth_texts CrossLingual "frontend_cross_lingual"
        (fun fe text => frontend_cross_lingual ext fe text prompt_speech_16k)
        tts_texts ;;
    torch_concat tts_speeches.

Definition inference_instruct (tts_texts : list string)
    (spk_embedding : Tensor) (instruct_text : string) : M State Tensor :=
  fe <- self_frontend_attr "instruct" ;;
  st <- get ;;
  if negb (instruct fe)
  then raise (ValueError
                (model_dir st ++ " do not support instruct inference"))
  else
    tts_speeches <-
      synth_texts Instruct "frontend_instruct"
        (fun fe text =>
           frontend_instruct ext fe text spk_embedding instruct_text)
        tts_texts ;;
    torch_concat tts_speeches.

Definition call_infer_func (infer_func : InferFunc) (tts_texts : list string)
  : M State Tensor :=
  match infer_func with
  | PartialSft e => inference_sft tts_texts e
  | PartialZeroShot t w => inference_zero_shot tts_texts t w
  | PartialCrossLingual w => inference_cross_lingual tts_texts w
  | PartialInstruct e i => inference_instruct tts_texts e i
  end.

(** ** Reference audio *)

(** The clip is decoded and resampled as soon as it is found; what the
    two helpers raise propagates. *)
Definition spk_to_ref_wav (spk : TTSSpeaker) (emo : string)
  : exn + option Wave * option string :=
  match get_ref spk (fun x => String.eqb (emotion x) emo) with
  | None => inr (None, None)
  | Some ref_data =>
      match bytes_to_librosa_array ext (wav ref_data) (wav_sr ref_data) with
      | inl e => inl e
      | inr wav0 =>
          match normalize_audio ext (wav_sr ref_data, wav0) target_sr with
          | inl e => inl e
          | inr (_, wav1) => inr (Some wav1, Some (text ref_data))
          end
      end
  end.

(** [postprocess] as its body needs it: on a torch tensor of shape
    (1, n), the only argument that passes [speech.abs()] and
    [torch.concat] (on a numpy array, which the annotation names, the
    source raises at [speech.abs()]).  Sample arithmetic is exact here,
    where the source rounds to float32; the function is called nowhere
    in the source, and below only the length of its result is used.

    Peak absolute amplitude, [speech.abs().max()]; undefined on an empty
    tensor. *)
Definition Qmax (a b : Q) : Q := if Qle_bool a b then b else a.

Definition peak (speech : Wave) : option Q :=
  match speech with
  | [] => None
  | x :: rest => Some (List.fold_left (fun m y => Qmax m (Qabs y)) rest (Qabs x))
  end.

(** [int(target_sr * 0.2)] samples of silence. *)
Definition pad_len : nat := Z.to_nat (target_sr * 2 / 10)%Z.

Definition postprocess (speech : Wave) (top_db : Q)
    (hop_length win_length : Z) : exn + Wave :=
  let '(speech1, _) := librosa_trim ext speech top_db win_length hop_length in
  match peak speech1 with
  | None => inl (RuntimeError "max(): Expected reduction dim to be specified for input.numel() == 0")
  | Some p =>
      let speech2 :=
        if negb (Qle_bool p max_val)
        then List.map (fun x : Q => (x / p * max_val)%Q) speech1
        else speech1 in
      inr (speech2 ++ List.repeat 0%Q pad_len)
  end.

(** The defaults of [postprocess]. *)
Definition postprocess_default (speech : Wave) : exn + Wave :=
  postprocess speech 60%Q 220%Z 440%Z.

(** ** Strategy selection (lines 271-293) *)

(** Both conditioning sources are resolved before the choice: the
    reference clip is decoded whether or not an embedding was found. *)
Definition select_infer_func (spk : TTSSpeaker) (emo instruct_text : string)
  : exn + InferFunc :=
  let spk_embedding := spk_to_embedding spk in
  match spk_to_ref_wav spk emo with
  | inl e => inl e
  | inr (ref_wav, ref_text) =>
      match spk_embedding with
      | Some e => inr (PartialInstruct e instruct_text)
      | None =>
          match ref_wav, ref_text with
          | Some w, Some t =>
              if str_truthy t
              then inr (PartialZeroShot t w)
              else inl (ValueError "spk_embedding is None")
          | _, _ => inl (ValueError "spk_embedding is None")
          end
      end
  end.

(** ** The batch executor *)

(** Modelled from the spec: [SeedContext] is not part of the source file.
    It is "a deterministic numeric-randomness scope seeded with the
    batch's inference seed for the duration of this single inference
    call", which restores the "prior random state on exit (scoped,
    exception-safe)". *)
Definition SeedContext {A} (seed : Z) (body : M State A) : M State A :=
  fun st =>
    let saved := rng st in
    let '(r, st') := body (set_rng (manual_seed ext seed) st) in
    (r, set_rng saved st').

(** Modelled from the spec: [get_cache] and [set_cache] belong to the
    base class, which is not part of the source file.  The cache
    collaborator is "get(segments, context) -> optional result;
    set(segments, context, value)", and key derivation "is the cache's
    responsibility". *)
Definition get_cache (segments : list TTSSegment)
    (context : TTSPipelineContext) : M State (option (list NP_AUDIO)) :=
  st <- get ;; ret (cache st !! cache_key ext segments context).

Definition set_cache (segments : list TTSSegment)
    (context : TTSPipelineContext) (value : list NP_AUDIO) : M State unit :=
  let key := cache_key ext segments context in
  modify (fun st => set_cache_map (<[key := value]> (cache st)) st) ;;;
  log (EvSetCache key value).

Definition sr : Z := 22050%Z.

(** The [for seg in segments] loop; [results] is the list built so far. *)
Fixpoint synth_loop (infer_func : InferFunc) (infer_seed : Z)
    (context : TTSPipelineContext) (segments : list TTSSegment)
    (results : list NP_AUDIO) : M State (list NP_AUDIO) :=
  match segments with
  | [] => ret results
  | seg :: rest =>
      if ctx_stop context (length results)
      then ret results
      else
        result <-
          SeedContext infer_seed
            (call_infer_func infer_func [seg_text seg]) ;;
        synth_loop infer_func infer_seed context rest
          (results ++ [(sr, result)])
  end.

(** The generator, run to exhaustion: the list of the values it yields. *)
Definition generate_batch_stream (segments : list TTSSegment)
    (context : TTSPipelineContext) : M State (list (list NP_AUDIO)) :=
  cached <- get_cache segments context ;;
  match cached with
  | Some v => ret [v]
  | None =>
      load ;;;
      match segments with
      | [] => raise (IndexError "list index out of range")
      | seg0 :: _ =>
          match seg_spk seg0 with
          | None => raise (ValueError "spk is None")
          | Some spk =>
              let emo := seg_emotion seg0 in
              let prompt2 := seg_prompt2 seg0 in
              let infer_seed := seg_infer_seed seg0 in
              let instruct_text :=
                instruct_text_of emo prompt2 (gender spk) in
              infer_func <- lift (select_infer_func spk emo instruct_text) ;;
              results <- synth_loop infer_func infer_seed context segments [] ;;
              set_cache segments context results ;;;
              ret [results]
          end
      end
  end.

(** [next(...)] on the generator: everything up to its first yield has
    run, which here is everything. *)
Definition generate_batch (segments : list TTSSegment)
    (context : TTSPipelineContext) : M State (list NP_AUDIO) :=
  ys <- generate_batch_stream segments context ;;
  match ys with
  | y :: _ => ret y
  | [] => raise StopIteration
  end.

(** ** Observations used by the statements *)

(** What one seeded inference call of the loop returns when it is run in
    state [st]: the tensor, or the exception it raises. *)
Definition infer_result (st : State) (infer_func : InferFunc)
    (infer_seed : Z) (tts_text : string) : exn + Tensor :=
  fst (SeedContext infer_seed (call_infer_func infer_func [tts_text]) st).

(** [c] never looks at the trace and changes nothing in the state but
    the trace, to which it appends events satisfying [P], and the random
    generator. *)
Definition traced {A} (P : Event -> Prop) (c : M State A) : Prop :=
  forall st, exists evs g r,
    Forall P evs /\
    forall t, c (set_trace t st) = (r, set_rng g (set_trace (t ++ evs) st)).

End Orchestrator.

Unset Implicit Arguments.

(** The model ids [spk_to_embedding] tries, in order. *)
Definition model_ids : list string :=
  [model_id; "cosyvoice_300m_instruct"; "cosyvoice_instruct"].

(** Events of the engine: a front-end call or a model call. *)
Definition is_inference_event (ev : Event) : bool :=
  match ev with
  | EvFrontend _ _ | EvModelInference => true
  | _ => false
  end.

(** Events of the engine under one strategy. *)
Definition is_strategy_event (s : Strategy) (ev : Event) : Prop :=
  match ev with
  | EvFrontend s' _ => s' = s
  | EvModelInference => True
  | _ => False
  end.

(** The work [load] does when it initialises the engine. *)
Definition init_events (dir dev dt : string) : list Event :=
  [ EvReadConfig (dir ++ "/cosyvoice.yaml");
    EvFrontEndInit dir;
    EvModelLoadWeights dir;
    EvToDevice "llm" dev dt;
    EvToDevice "flow" dev dt;
    EvToDevice "hift" dev dt;
    EvTorchGC ].

(** A clip usable for zero-shot conditioning under emotion [emo]. *)
Definition usable_clip (emo : string) (clip : DcSpkReference) : Prop :=
  emotion clip = emo /\ text clip <> "".

(** [needle] occurs in [hay]. *)
Definition occurs_in (needle hay : string) : Prop :=
  exists pre post : string, hay = (pre ++ needle ++ post)%string.

(** ** The spec's reading of two steps, for comparison with the source *)

(** The instruct text in the spec's words: the female tag for "a gender
    string containing the female marker, in either script". *)
Definition spec_instruct_text (emo prompt2 g : string) : string :=
  ((if str_in "female" g || str_in "女" g
    then "female voice. " else "male voice. ")
   ++ str_or (str_or emo prompt2) "")%string.

Set Implicit Arguments.

Section SpecReading.

Variables Configs ModelInput RngState : Type.
Variable ext : Externals Configs ModelInput RngState.

(** The zero-shot prompt in the spec's words: the clip, decoded and
    brought to 16 kHz, then postprocessed ("applied to conditioning
    reference audio before it is used as a synthesis prompt"). *)
Definition spec_zero_shot_prompt (clip : DcSpkReference) : exn + Wave :=
  match bytes_to_librosa_array ext (wav clip) (wav_sr clip) with
  | inl e => inl e
  | inr wav0 =>
      match normalize_audio ext (wav_sr clip, wav0) target_sr with
      | inl e => inl e
      | inr (_, wav1) => postprocess_default ext wav1
      end
  end.

End SpecReading.

Unset Implicit Arguments.

(** ** A concrete instance: a toy engine, speakers and batches *)

Module Demo.

Definition engine_failure : exn := RuntimeError "engine failure".

Definition decode_failure : exn := Raise "DecodeError" "no audio data".

(** The toy engine: the model input is the text, the output one sample
    holding its length; the instruct front-end rejects the text "boom";
    the decoder rejects a clip without bytes. *)
Definition ext : Externals unit string Z := {|
  path_exists := fun _ => true;
  read_config := fun _ => inr tt;
  frontend_init := fun _ _ => None;
  model_load := fun _ _ => None;
  frontend_sft := fun _ t _ => inr t;
  frontend_zero_shot := fun _ t _ _ => inr t;
  frontend_cross_lingual := fun _ t _ => inr t;
  frontend_instruct := fun _ t _ _ =>
    if String.eqb t "boom" then inl engine_failure else inr t;
  model_inference := fun _ g mi =>
    (inr [inject_Z (Z.of_nat (String.length mi))], (g + 1)%Z);
  manual_seed := fun z => z;
  bytes_to_librosa_array := fun bs _ =>
    match bs with
    | [] => inl decode_failure
    | _ => inr (List.map (fun b => inject_Z (Z.of_N (Byte.to_N b)) / 100)%Q bs)
    end;
  normalize_audio := fun a _ => inr (target_sr, snd a);
  librosa_trim := fun w _ _ _ => (w, (0%Z, Z.of_nat (length w)));
  cache_key := fun segs c =>
    (ctx_id c ++ "|" ++ String.concat "|" (List.map seg_text segs))%string;
|}.

(** A fresh process: nothing loaded, empty cache. *)
Definition st0 : State Z := {|
  cls_model := None; cls_frontend := None;
  self_model := None; self_frontend := None;
  model_dir := "models/CosyVoice_300M"; device := "cuda"; dtype := "float16";
  cache := ∅; rng := 7%Z; next_id := 0; trace := [];
|}.

(** What the first [load] of a fresh process returns and leaves. *)
Definition h0 : CosyVoiceModel * option CosyVoiceFrontEnd :=
  ({| m_id := 1; m_device := "cuda"; m_dtype := "float16" |},
   Some {| fe_id := 0; instruct := true; fe_device := "cuda" |}).

Definition st1 : State Z := snd (load ext st0).

Definition fe_instruct : CosyVoiceFrontEnd :=
  {| fe_id := 0; instruct := true; fe_device := "cuda" |}.

Definition fe_plain : CosyVoiceFrontEnd :=
  {| fe_id := 0; instruct := false; fe_device := "cuda" |}.

Definition model0 : CosyVoiceModel :=
  {| m_id := 1; m_device := "cuda"; m_dtype := "float16" |}.

(** The state with the engine loaded by this instance, front-end [fe]. *)
Definition st_loaded (fe : CosyVoiceFrontEnd) : State Z := {|
  cls_model := Some model0; cls_frontend := Some fe;
  self_model := Some model0; self_frontend := Some fe;
  model_dir := "models/CosyVoice_300M"; device := "cuda"; dtype := "float16";
  cache := ∅; rng := 7%Z; next_id := 2; trace := [];
|}.

Definition clip_calm : DcSpkReference :=
  {| wav := [Byte.x5a; Byte.x19]; wav_sr := 44100%Z;
     text := "hello there"; emotion := "calm" |}.

Definition clip_silent_text : DcSpkReference :=
  {| wav := [Byte.x5a; Byte.x19]; wav_sr := 44100%Z;
     text := ""; emotion := "angry" |}.

Definition tok (e : list Tensor) : DcSpkVoiceToken := {| embedding := e |}.

(** Embedding and a usable clip. *)
Definition spk_both : TTSSpeaker :=
  {| gender := "female";
     token := {[ "cosy-voice" := tok [[1; 2]%Q] ]};
     refs := [clip_calm] |}.

(** Only a clip tagged "calm". *)
Definition spk_calm_only : TTSSpeaker :=
  {| gender := "male"; token := ∅; refs := [clip_calm] |}.

(** Only a clip with an empty transcript. *)
Definition spk_no_transcript : TTSSpeaker :=
  {| gender := "male"; token := ∅; refs := [clip_silent_text] |}.

(** An embedding, and a gender that mentions "female" among other
    words. *)
Definition spk_latin : TTSSpeaker :=
  {| gender := "young female";
     token := {[ "cosy-voice" := tok [[1; 2]%Q] ]};
     refs := [] |}.

(** An empty token under the own id, a full one under an alias. *)
Definition spk_shadowed : TTSSpeaker :=
  {| gender := "女";
     token := {[ "cosy-voice" := tok [];
                 "cosyvoice_instruct" := tok [[3; 4]%Q] ]};
     refs := [clip_calm] |}.

Definition seg (t : string) (s : option TTSSpeaker) (emo : string)
  : TTSSegment :=
  {| seg_text := t; seg_spk := s; seg_emotion := emo; seg_prompt2 := "";
     seg_infer_seed := 42%Z; seg_temperature := 3 # 10;
     seg_top_p := 7 # 10; seg_top_k := 20%Z |}.

Definition batch5 (s : TTSSpeaker) (emo : string) : list TTSSegment :=
  [ seg "one" (Some s) emo; seg "two" (Some s) emo; seg "three" (Some s) emo;
    seg "four" (Some s) emo; seg "five" (Some s) emo ].

(** A batch whose third text the instruct front-end rejects. *)
Definition batch_boom (s : TTSSpeaker) : list TTSSegment :=
  [ seg "one" (Some s) "calm"; seg "two" (Some s) "calm";
    seg "boom" (Some s) "calm"; seg "four" (Some s) "calm" ].

(** A process whose cache already holds a result for the one-segment
    batch ["one"], which has no speaker. *)
Definition cached_value : list NP_AUDIO := [(sr, [1 # 2; 1 # 4])].

Definition st_cached : State Z :=
  set_cache_map {[ "ctx|one" := cached_value ]} st0.

(** The caller never cancels / cancels once [k] segments are done. *)
Definition ctx_run : TTSPipelineContext :=
  {| ctx_id := "ctx"; ctx_stop := fun _ => false |}.

Definition ctx_cancel_after (k : nat) : TTSPipelineContext :=
  {| ctx_id := "ctx"; ctx_stop := fun i => Nat.leb k i |}.

End Demo.

(** ** The tokenizer entry points (lines 141-153) *)

Set Implicit Arguments.

Section Tokenizer.

Variables Configs ModelInput RngState : Type.
Variable ext : Externals Configs ModelInput RngState.

(** [self.frontend.tokenizer], the tokenizer the front-end carries: its
    two methods, which may raise. *)
Variable tokenizer_encode : CosyVoiceFrontEnd -> string -> exn + list Z.
Variable tokenizer_decode : CosyVoiceFrontEnd -> list Z -> exn + string.

Definition encode (text : string) : M (State RngState) (list Z) :=
  load ext ;;;
  fe <- self_frontend_attr "tokenizer" ;;
  lift (tokenizer_encode fe text).

Definition decode (ids : list Z) : M (State RngState) string :=
  load ext ;;;
  fe <- self_frontend_attr "tokenizer" ;;
  lift (tokenizer_decode fe ids).

End Tokenizer.

Unset Implicit Arguments.

(** The engine calls one inference operation makes for [tts_texts] when
    nothing fails: per text, the front-end call and then the model call. *)
Definition calls_of (s : Strategy) (tts_texts : list string) : list Event :=
  flat_map (fun t => [EvFrontend s t; EvModelInference]) tts_texts.

(** ** More of the concrete instance *)

Module DemoMore.

(** The tokenizer of the toy front-end: one id per byte, and back. *)
Definition tokenizer_encode (fe : CosyVoiceFrontEnd) (t : string)
  : exn + list Z :=
  inr (List.map (fun b => Z.of_N (Byte.to_N b)) (String.list_byte_of_string t)).

Definition tokenizer_decode (fe : CosyVoiceFrontEnd) (ids : list Z)
  : exn + string :=
  inr (String.string_of_list_byte
         (List.map (fun z => match Byte.of_N (Z.to_N z) with
                             | Some b => b
                             | None => Byte.x3f
                             end) ids)).


(** An instance constructed in the fresh process, after which another
    instance loaded the engine: the class attributes are set, the
    instance's own are still [None]. *)
Definition st_stale : State Z :=
  set_cls (Some Demo.model0) (Some Demo.fe_instruct)
    (snd (init Demo.ext "cuda" "float16" Demo.st0)).

(** Clips whose bytes the decoder rejects, with and without a
    transcript. *)
Definition clip_broken : DcSpkReference :=
  {| wav := []; wav_sr := 44100%Z; text := "hello there"; emotion := "calm" |}.

Definition clip_broken_silent_text : DcSpkReference :=
  {| wav := []; wav_sr := 44100%Z; text := ""; emotion := "angry" |}.

(** An embedding, and a clip for "calm" that cannot be decoded. *)
Definition spk_embedding_broken_clip : TTSSpeaker :=
  {| gender := "female";
     token := {[ "cosy-voice" := Demo.tok [[1; 2]%Q] ]};
     refs := [clip_broken] |}.

(** No token; the only clip has no transcript and cannot be decoded. *)
Definition spk_broken_no_transcript : TTSSpeaker :=
  {| gender := "male"; token := ∅; refs := [clip_broken_silent_text] |}.

(** An empty token under the own id, a full one under an alias, and a
    clip that cannot be decoded. *)
Definition spk_shadowed_broken_clip : TTSSpeaker :=
  {| gender := "女";
     token := {[ "cosy-voice" := Demo.tok [];
                 "cosyvoice_instruct" := Demo.tok [[3; 4]%Q] ]};
     refs := [clip_broken] |}.

(** A batch whose later segments name other speakers, emotions and
    seeds than the first, with the texts of [Demo.batch5]. *)
Definition batch5_mixed : list TTSSegment :=
  [ Demo.seg "one" (Some Demo.spk_both) "calm";
    {| seg_text := "two"; seg_spk := None; seg_emotion := "angry";
       seg_prompt2 := "whisper"; seg_infer_seed := 7%Z;
       seg_temperature := 1; seg_top_p := 1; seg_top_k := 1%Z |};
    Demo.seg "three" (Some Demo.spk_calm_only) "sad";
    Demo.seg "four" (Some Demo.spk_shadowed) "";
    Demo.seg "five" None "calm" ].

End DemoMore.

(** * Properties *)

(** ** Strings *)

Lemma append_cons (c : Ascii.ascii) (s t : string) :
  (String c s ++ t)%string = String c (s ++ t)%string.
Proof. reflexivity. Qed.

Lemma prefix_append (n post : string) : String.prefix n (n ++ post) = true.
Proof.
  induction n as [|c n IH].
  - destruct post; reflexivity.
  - rewrite append_cons. simpl.
    destruct (Ascii.ascii_dec c c); [exact IH | congruence].
Qed.

Lemma prefix_inv (n h : string) :
  String.prefix n h = true -> exists post : string, h = (n ++ post)%string.
Proof.
  revert h. induction n as [|c n IH]; intros h H.
  - exists h. reflexivity.
  - destruct h as [|d h]; [discriminate|]. simpl in H.
    destruct (Ascii.ascii_dec c d) as [->|]; [|discriminate].
    destruct (IH _ H) as [post ->]. exists post. reflexivity.
Qed.

Lemma str_in_unfold (n h : string) :
  str_in n h =
  String.prefix n h ||
  match h with EmptyString => false | String _ h' => str_in n h' end.
Proof. destruct h; reflexivity. Qed.

Lemma str_in_occurs (n h : string) : str_in n h = true <-> occurs_in n h.
Proof.
  split.
  - induction h as [|c h IH]; rewrite str_in_unfold; intros H;
      apply orb_true_iff in H as [H|H].
    + destruct (prefix_inv _ _ H) as [post E]. exists ""%string, post. exact E.
    + discriminate.
    + destruct (prefix_inv _ _ H) as [post E]. exists ""%string, post. exact E.
    + destruct (IH H) as (pre & post & ->).
      exists (String c pre), post. reflexivity.
  - intros (pre & post & ->). induction pre as [|c pre IH].
    + rewrite str_in_unfold.
      change (("" ++ n ++ post)%string) with ((n ++ post)%string).
      rewrite prefix_append. reflexivity.
    + rewrite append_cons, str_in_unfold, IH. apply orb_true_r.
Qed.

Lemma is_female_spec (g : string) :
  is_female g = true <-> (g = "female" \/ occurs_in "女" g).
Proof.
  unfold is_female. rewrite orb_true_iff, String.eqb_eq, str_in_occurs.
  reflexivity.
Qed.

Lemma str_or_cases (a b : string) :
  (a <> "" -> str_or a b = a) /\ (a = "" -> str_or a b = b).
Proof.
  split; intros H; destruct a; simpl; congruence.
Qed.

Lemma str_truthy_nonempty (s : string) : str_truthy s = true <-> s <> "".
Proof. destruct s; simpl; split; congruence. Qed.

(** ** Token lookup *)

Lemma spk_to_embedding_own (spk : TTSSpeaker) (cfg : DcSpkVoiceToken) :
  get_token spk model_id = Some cfg ->
  spk_to_embedding spk = head (embedding cfg).
Proof.
  intros H. unfold spk_to_embedding. rewrite H. simpl.
  destruct (embedding cfg); reflexivity.
Qed.

Lemma spk_to_embedding_alias1 (spk : TTSSpeaker) (cfg : DcSpkVoiceToken) :
  get_token spk model_id = None ->
  get_token spk "cosyvoice_300m_instruct" = Some cfg ->
  spk_to_embedding spk = head (embedding cfg).
Proof.
  intros H0 H. unfold spk_to_embedding. rewrite H0, H. simpl.
  destruct (embedding cfg); reflexivity.
Qed.

Lemma spk_to_embedding_alias2 (spk : TTSSpeaker) (cfg : DcSpkVoiceToken) :
  get_token spk model_id = None ->
  get_token spk "cosyvoice_300m_instruct" = None ->
  get_token spk "cosyvoice_instruct" = Some cfg ->
  spk_to_embedding spk = head (embedding cfg).
Proof.
  intros H0 H1 H. unfold spk_to_embedding. rewrite H0, H1, H. simpl.
  destruct (embedding cfg); reflexivity.
Qed.

Section Facts.

Variables Configs ModelInput RngState : Type.
Variable ext : Externals Configs ModelInput RngState.
Abbreviation State := (State RngState).

(** ** Strategy selection *)

(** The reference pair comes from the clip [get_ref] returned: nothing
    when there is none, the error of a helper that raises, else the clip
    decoded and resampled with its transcript. *)
Lemma spk_to_ref_wav_cases (spk : TTSSpeaker) (emo : string) :
  match get_ref spk (fun x => String.eqb (emotion x) emo) with
  | None => spk_to_ref_wav ext spk emo = inr (None, None)
  | Some clip =>
      match bytes_to_librosa_array ext (wav clip) (wav_sr clip) with
      | inl e => spk_to_ref_wav ext spk emo = inl e
      | inr wav0 =>
          match normalize_audio ext (wav_sr clip, wav0) target_sr with
          | inl e => spk_to_ref_wav ext spk emo = inl e
          | inr (_, w) =>
              spk_to_ref_wav ext spk emo = inr (Some w, Some (text clip))
          end
      end
  end.
Proof.
  unfold spk_to_ref_wav.
  destruct (get_ref spk _) as [clip|]; [|reflexivity].
  destruct (bytes_to_librosa_array ext _ _) as [e|wav0]; [reflexivity|].
  destruct (normalize_audio ext _ _) as [e|[sr1 w]]; reflexivity.
Qed.

Lemma spk_to_ref_wav_inv (spk : TTSSpeaker) (emo t : string) (w : Wave) :
  spk_to_ref_wav ext spk emo = inr (Some w, Some t) ->
  exists clip wav0 sr1,
    get_ref spk (fun x => String.eqb (emotion x) emo) = Some clip /\
    t = text clip /\
    bytes_to_librosa_array ext (wav clip) (wav_sr clip) = inr wav0 /\
    normalize_audio ext (wav_sr clip, wav0) target_sr = inr (sr1, w).
Proof.
  pose proof (spk_to_ref_wav_cases spk emo) as H.
  destruct (get_ref spk _) as [clip|]; [|rewrite H; discriminate].
  destruct (bytes_to_librosa_array ext _ _) as [e|wav0] eqn:Hd;
    [rewrite H; discriminate|].
  destruct (normalize_audio ext _ _) as [e|[sr1 w1]] eqn:Hn;
    [rewrite H; discriminate|].
  rewrite H. intros [= <- <-]. exists clip, wav0, sr1. auto.
Qed.

Lemma get_ref_sound (spk : TTSSpeaker) (emo : string) (clip : DcSpkReference) :
  get_ref spk (fun x => String.eqb (emotion x) emo) = Some clip ->
  In clip (refs spk) /\ emotion clip = emo.
Proof.
  unfold get_ref. intros H. apply List.find_some in H as [Hin He].
  split; [exact Hin|]. apply String.eqb_eq. exact He.
Qed.

Lemma get_ref_none (spk : TTSSpeaker) (emo : string) :
  (forall clip, In clip (refs spk) -> emotion clip <> emo) ->
  get_ref spk (fun x => String.eqb (emotion x) emo) = None.
Proof.
  intros H. destruct (get_ref spk _) as [clip|] eqn:E; [|reflexivity].
  apply get_ref_sound in E as [Hin He]. destruct (H clip Hin He).
Qed.

Lemma select_with_embedding (spk : TTSSpeaker) (emo it : string) (e : Tensor) :
  spk_to_embedding spk = Some e ->
  select_infer_func ext spk emo it =
  match spk_to_ref_wav ext spk emo with
  | inl err => inl err
  | inr _ => inr (PartialInstruct e it)
  end.
Proof.
  intros H. unfold select_infer_func. rewrite H.
  destruct (spk_to_ref_wav ext spk emo) as [err|[a b]]; reflexivity.
Qed.

Lemma select_without_embedding (spk : TTSSpeaker) (emo it : string) :
  spk_to_embedding spk = None ->
  select_infer_func ext spk emo it =
  match spk_to_ref_wav ext spk emo with
  | inl err => inl err
  | inr (Some w, Some t) =>
      if str_truthy t then inr (PartialZeroShot t w)
      else inl (ValueError "spk_embedding is None")
  | inr _ => inl (ValueError "spk_embedding is None")
  end.
Proof.
  intros H. unfold select_infer_func. rewrite H.
  destruct (spk_to_ref_wav ext spk emo) as [err|[[w|] [t|]]]; reflexivity.
Qed.

Lemma select_no_conditioning (spk : TTSSpeaker) (emo it : string) :
  spk_to_embedding spk = None ->
  (forall clip, In clip (refs spk) -> ~ usable_clip emo clip) ->
  select_infer_func ext spk emo it =
  match spk_to_ref_wav ext spk emo with
  | inl err => inl err
  | inr _ => inl (ValueError "spk_embedding is None")
  end.
Proof.
  intros He Hno. rewrite select_without_embedding by exact He.
  destruct (spk_to_ref_wav ext spk emo) as [err|[[w|] [t|]]] eqn:E;
    try reflexivity.
  destruct (spk_to_ref_wav_inv _ _ _ _ E) as (clip & wav0 & sr1 & Hg & -> & _).
  apply get_ref_sound in Hg as [Hin Hemo].
  destruct (str_truthy (text clip)) eqn:Ht; [|reflexivity].
  exfalso. apply (Hno clip Hin). split; [exact Hemo|].
  apply str_truthy_nonempty. exact Ht.
Qed.

Lemma select_outcomes (spk : TTSSpeaker) (emo it : string) :
  match select_infer_func ext spk emo it with
  | inr (PartialInstruct e it') =>
      spk_to_embedding spk = Some e /\ it' = it /\
      exists ref, spk_to_ref_wav ext spk emo = inr ref
  | inr (PartialZeroShot t w) =>
      spk_to_embedding spk = None /\
      spk_to_ref_wav ext spk emo = inr (Some w, Some t) /\ t <> ""
  | inr _ => False
  | inl e =>
      spk_to_ref_wav ext spk emo = inl e \/
      (e = ValueError "spk_embedding is None" /\
       spk_to_embedding spk = None /\
       exists ref, spk_to_ref_wav ext spk emo = inr ref)
  end.
Proof.
  destruct (spk_to_embedding spk) as [e|] eqn:He.
  - rewrite (select_with_embedding _ _ _ _ He).
    destruct (spk_to_ref_wav ext spk emo) as [err|ref]; eauto.
  - rewrite select_without_embedding by exact He.
    destruct (spk_to_ref_wav ext spk emo) as [err|[[w|] [t|]]]; eauto 6.
    destruct (str_truthy t) eqn:Ht; eauto 6.
    repeat split. apply str_truthy_nonempty. exact Ht.
Qed.

(** ** Running the monad *)

Lemma set_trace_id (st : State) : set_trace (trace st) st = st.
Proof. destruct st; reflexivity. Qed.

Lemma set_rng_id (st : State) : set_rng (rng st) st = st.
Proof. destruct st; reflexivity. Qed.

Lemma traced_pure {A} (P : Event -> Prop) (r : exn + A) :
  traced P (lift r : M State A).
Proof.
  intros st. exists [], (rng st), r. split; [constructor|].
  intros t. unfold lift. rewrite app_nil_r.
  destruct st; reflexivity.
Qed.

Lemma traced_ret {A} (P : Event -> Prop) (a : A) :
  traced P (ret a : M State A).
Proof. exact (traced_pure P (inr a)). Qed.

Lemma traced_raise {A} (P : Event -> Prop) (e : exn) :
  traced P (raise e : M State A).
Proof. exact (traced_pure P (inl e)). Qed.

Lemma traced_log (P : Event -> Prop) (ev : Event) :
  P ev -> traced P (log ev : M State unit).
Proof.
  intros H st. exists [ev], (rng st), (inr tt). split; [repeat constructor; exact H|].
  intros t. destruct st; reflexivity.
Qed.

Lemma traced_bind {A B} (P : Event -> Prop) (c : M State A) (k : A -> M State B) :
  traced P c -> (forall a, traced P (k a)) -> traced P (bind c k).
Proof.
  intros Hc Hk st. destruct (Hc st) as (evs1 & g1 & r1 & HP1 & H1).
  destruct r1 as [e|a].
  - exists evs1, g1, (inl e). split; [exact HP1|].
    intros t. unfold bind. rewrite H1. reflexivity.
  - destruct (Hk a (set_rng g1 st)) as (evs2 & g2 & r2 & HP2 & H2).
    exists (evs1 ++ evs2), g2, r2. split; [apply Forall_app; auto|].
    intros t. unfold bind. rewrite H1.
    change (set_rng g1 (set_trace (t ++ evs1) st))
      with (set_trace (t ++ evs1) (set_rng g1 st)).
    rewrite H2, app_assoc. reflexivity.
Qed.

Lemma traced_self_frontend_attr (P : Event -> Prop) (attr : string) :
  traced P (self_frontend_attr attr : M State CosyVoiceFrontEnd).
Proof.
  intros st. unfold self_frontend_attr, bind, get, ret, raise.
  destruct (self_frontend st) as [fe|] eqn:E.
  - exists [], (rng st), (inr fe). split; [constructor|]. intros t. simpl.
    rewrite E, app_nil_r. destruct st; reflexivity.
  - eexists [], (rng st), (inl _). split; [constructor|]. intros t. simpl.
    rewrite E, app_nil_r. destruct st; reflexivity.
Qed.

Lemma traced_self_model_inference (P : Event -> Prop) (mi : ModelInput) :
  P EvModelInference -> traced P (self_model_inference ext mi).
Proof.
  intros HP st. unfold self_model_inference, bind, get, ret, raise, log, modify, lift.
  destruct (self_model st) as [m|] eqn:E.
  - destruct (model_inference ext m (rng st) mi) as [out g] eqn:Em.
    exists [EvModelInference], g, out. split; [repeat constructor; exact HP|].
    intros t. simpl. rewrite E, Em. reflexivity.
  - eexists [], (rng st), (inl _). split; [constructor|]. intros t. simpl.
    rewrite E, app_nil_r. destruct st; reflexivity.
Qed.

Lemma traced_model_dir {A} (P : Event -> Prop) (k : string -> M State A) :
  (forall d, traced P (k d)) ->
  traced P (bind get (fun st => k (model_dir st))).
Proof.
  intros Hk st. destruct (Hk (model_dir st) st) as (evs & g & r & HP & H).
  exists evs, g, r. split; [exact HP|]. intros t. unfold bind, get. simpl.
  apply H.
Qed.

(** The closure lemmas, as one tactic: peel binds, settle the leaves. *)
Ltac traced_step :=
  first
    [ apply traced_ret
    | apply traced_raise
    | apply traced_pure
    | apply traced_self_frontend_attr
    | apply traced_log; reflexivity
    | apply traced_self_model_inference; exact I
    | apply traced_bind; [|intro] ].

Lemma traced_synth_texts (s : Strategy) (attr : string)
    (fc : CosyVoiceFrontEnd -> string -> exn + ModelInput) (texts : list string) :
  traced (is_strategy_event s) (synth_texts ext s attr fc texts).
Proof.
  induction texts as [|t texts IH]; simpl.
  - traced_step.
  - do 4 (apply traced_bind; [traced_step|intro]).
    apply traced_bind; [exact IH|intro]. traced_step.
Qed.

Lemma traced_torch_concat (P : Event -> Prop) (l : list Tensor) :
  traced P (torch_concat l : M State Tensor).
Proof. destruct l; traced_step. Qed.

Lemma traced_synth_concat (s : Strategy) (attr : string)
    (fc : CosyVoiceFrontEnd -> string -> exn + ModelInput) (texts : list string) :
  traced (is_strategy_event s)
    (tts_speeches <- synth_texts ext s attr fc texts ;;
     torch_concat tts_speeches).
Proof.
  apply traced_bind; [apply traced_synth_texts|intro].
  apply traced_torch_concat.
Qed.

Lemma traced_call_infer_func (f : InferFunc) (texts : list string) :
  traced (is_strategy_event (strategy_of f)) (call_infer_func ext f texts).
Proof.
  destruct f as [e|t w|w|e it]; simpl.
  - apply traced_synth_concat.
  - apply traced_synth_concat.
  - apply traced_bind; [traced_step|intros fe].
    apply (traced_model_dir _ (fun d =>
      if instruct fe
      then raise (ValueError (d ++ " do not support cross_lingual inference"))
      else
        tts_speeches <-
          synth_texts ext CrossLingual "frontend_cross_lingual"
            (fun fe text => frontend_cross_lingual ext fe text w) texts ;;
        torch_concat tts_speeches)).
    intros d. destruct (instruct fe); [traced_step|].
    apply traced_synth_concat.
  - apply traced_bind; [traced_step|intros fe].
    apply (traced_model_dir _ (fun d =>
      if negb (instruct fe)
      then raise (ValueError (d ++ " do not support instruct inference"))
      else
        tts_speeches <-
          synth_texts ext Instruct "frontend_instruct"
            (fun fe text => frontend_instruct ext fe text e it) texts ;;
        torch_concat tts_speeches)).
    intros d. destruct (instruct fe); simpl; [|traced_step].
    apply traced_synth_concat.
Qed.

Lemma traced_seed_context {A} (P : Event -> Prop) (seed : Z)
    (body : M State A) :
  traced P body -> traced P (SeedContext ext seed body).
Proof.
  intros H st.
  destruct (H (set_rng (manual_seed ext seed) st)) as (evs & g & r & HP & Hb).
  exists evs, (rng st), r. split; [exact HP|]. intros t. unfold SeedContext.
  change (set_rng (manual_seed ext seed) (set_trace t st))
    with (set_trace t (set_rng (manual_seed ext seed) st)).
  rewrite Hb. reflexivity.
Qed.

Lemma traced_synth_loop (f : InferFunc) (seed : Z) (ctx : TTSPipelineContext)
    (segments : list TTSSegment) :
  forall results,
    traced (is_strategy_event (strategy_of f))
      (synth_loop ext f seed ctx segments results).
Proof.
  induction segments as [|seg rest IH]; intros results; simpl.
  - apply traced_ret.
  - destruct (ctx_stop ctx (length results)); [apply traced_ret|].
    apply traced_bind.
    + apply traced_seed_context, traced_call_infer_func.
    + intros out. apply IH.
Qed.

(** ** One seeded inference call, and the loop over the segments *)

Lemma seeded_call (f : InferFunc) (seed : Z) (text : string) (st : State) :
  exists evs,
    Forall (is_strategy_event (strategy_of f)) evs /\
    forall t,
      SeedContext ext seed (call_infer_func ext f [text]) (set_trace t st) =
      (infer_result ext st f seed text, set_trace (t ++ evs) st).
Proof.
  destruct (traced_call_infer_func f [text] (set_rng (manual_seed ext seed) st))
    as (evs & g & r & HP & H).
  exists evs. split; [exact HP|].
  assert (Hall : forall t,
    SeedContext ext seed (call_infer_func ext f [text]) (set_trace t st) =
    (r, set_trace (t ++ evs) st)).
  { intros t. unfold SeedContext.
    change (set_rng (manual_seed ext seed) (set_trace t st))
      with (set_trace t (set_rng (manual_seed ext seed) st)).
    rewrite H. reflexivity. }
  intros t. rewrite Hall. f_equal.
  unfold infer_result. rewrite <- (set_trace_id st) at 1. rewrite Hall. reflexivity.
Qed.

Lemma infer_result_set_trace (f : InferFunc) (seed : Z) (text : string) (st : State) t :
  infer_result ext (set_trace t st) f seed text = infer_result ext st f seed text.
Proof.
  destruct (seeded_call f seed text st) as (evs & _ & H).
  unfold infer_result at 1. rewrite H. reflexivity.
Qed.

Lemma synth_loop_prefix (f : InferFunc) (seed : Z) (ctx : TTSPipelineContext)
    (st : State) (done rest : list TTSSegment) (outs : list Tensor) :
  Forall2 (fun seg out => infer_result ext st f seed (seg_text seg) = inr out)
    done outs ->
  forall results,
    (forall i, i < length done -> ctx_stop ctx (length results + i) = false) ->
    (rest = [] \/ ctx_stop ctx (length results + length done) = true) ->
    exists evs,
      Forall (is_strategy_event (strategy_of f)) evs /\
      forall t,
        synth_loop ext f seed ctx (done ++ rest) results (set_trace t st) =
        (inr (results ++ List.map (pair sr) outs), set_trace (t ++ evs) st).
Proof.
  induction 1 as [|seg out done outs Hseg _ IH]; intros results Hrun Hend.
  - exists []. split; [constructor|]. intros t. simpl.
    rewrite !app_nil_r.
    destruct Hend as [->|Hstop]; [reflexivity|].
    destruct rest as [|seg rest]; [reflexivity|]. simpl.
    rewrite Nat.add_0_r in Hstop. rewrite Hstop. reflexivity.
  - destruct (seeded_call f seed (seg_text seg) st) as (evs1 & HP1 & H1).
    destruct (IH (results ++ [(sr, out)])) as (evs2 & HP2 & H2).
    + intros i Hi. rewrite length_app. simpl.
      replace (length results + 1 + i) with (length results + S i) by lia.
      apply Hrun. simpl. lia.
    + destruct Hend as [->|Hstop]; [left; reflexivity|right].
      rewrite length_app. simpl. simpl in Hstop.
      replace (length results + 1 + length done)
        with (length results + S (length done)) by lia.
      exact Hstop.
    + exists (evs1 ++ evs2). split; [apply Forall_app; auto|]. intros t.
      simpl. rewrite <- (Nat.add_0_r (length results)).
      rewrite Hrun by (simpl; lia).
      unfold bind. rewrite H1, Hseg, H2.
      rewrite <- !app_assoc. reflexivity.
Qed.

Lemma synth_loop_error (f : InferFunc) (seed : Z) (ctx : TTSPipelineContext)
    (st : State) (done rest : list TTSSegment) (outs : list Tensor)
    (bad : TTSSegment) (e : exn) :
  Forall2 (fun seg out => infer_result ext st f seed (seg_text seg) = inr out)
    done outs ->
  infer_result ext st f seed (seg_text bad) = inl e ->
  forall results,
    (forall i, i <= length done -> ctx_stop ctx (length results + i) = false) ->
    exists evs,
      Forall (is_strategy_event (strategy_of f)) evs /\
      forall t,
        synth_loop ext f seed ctx (done ++ bad :: rest) results (set_trace t st) =
        (inl e, set_trace (t ++ evs) st).
Proof.
  intros Hdone Hbad.
  induction Hdone as [|seg out done outs Hseg _ IH]; intros results Hrun.
  - destruct (seeded_call f seed (seg_text bad) st) as (evs & HP & H).
    exists evs. split; [exact HP|]. intros t. simpl.
    rewrite <- (Nat.add_0_r (length results)).
    rewrite Hrun by (simpl; lia).
    unfold bind. rewrite H, Hbad. reflexivity.
  - destruct (seeded_call f seed (seg_text seg) st) as (evs1 & HP1 & H1).
    destruct (IH (results ++ [(sr, out)])) as (evs2 & HP2 & H2).
    + intros i Hi. rewrite length_app. simpl.
      replace (length results + 1 + i) with (length results + S i) by lia.
      apply Hrun. simpl. lia.
    + exists (evs1 ++ evs2). split; [apply Forall_app; auto|]. intros t.
      simpl. rewrite <- (Nat.add_0_r (length results)).
      rewrite Hrun by (simpl; lia).
      unfold bind. rewrite H1, Hseg, H2.
      rewrite <- !app_assoc. reflexivity.
Qed.

(** ** Model lifecycle *)

Lemma load_loaded (st : State) (m : CosyVoiceModel) :
  cls_model st = Some m ->
  load ext st = (inr (m, cls_frontend st), set_trace (trace st ++ [EvLoad]) st).
Proof.
  intros H. unfold load, bind, log, modify, get, ret. simpl. rewrite H.
  reflexivity.
Qed.

Lemma load_fresh (st st1 : State) (h : CosyVoiceModel * option CosyVoiceFrontEnd) :
  cls_model st = None ->
  load ext st = (inr h, st1) ->
  trace st1 =
    trace st ++ EvLoad :: init_events (model_dir st) (device st) (dtype st) /\
  cls_model st1 = Some (fst h) /\ cls_frontend st1 = snd h.
Proof.
  intros H. unfold load, bind, log, modify, get, ret, lift, opt_raise,
    fresh_id, raise. simpl. rewrite H.
  destruct (read_config ext _) as [e|configs]; [discriminate|].
  destruct (frontend_init ext configs _); [discriminate|]. simpl.
  destruct (model_load ext configs _); [discriminate|]. simpl.
  intros [= <- <-]. simpl. rewrite <- !app_assoc. auto.
Qed.

Lemma load_publishes (st st1 : State) (h : CosyVoiceModel * option CosyVoiceFrontEnd) :
  load ext st = (inr h, st1) ->
  cls_model st1 = Some (fst h) /\ cls_frontend st1 = snd h.
Proof.
  intros H. destruct (cls_model st) as [m|] eqn:E.
  - rewrite (load_loaded _ _ E) in H. injection H as <- <-. simpl. auto.
  - apply (load_fresh _ _ _ E) in H. tauto.
Qed.

(** [load] always leaves its mark on the trace, and never touches the
    cache. *)
Lemma load_footprint (st : State) :
  exists evs,
    trace (snd (load ext st)) = trace st ++ EvLoad :: evs /\
    cache (snd (load ext st)) = cache st /\
    Forall (fun ev => is_inference_event ev = false) evs /\
    Forall (fun ev => forall k v, ev <> EvSetCache k v) evs.
Proof.
  unfold load, bind, log, modify, get, ret, lift, opt_raise, fresh_id, raise.
  simpl. destruct (cls_model st).
  { exists []. simpl. auto. }
  destruct (read_config ext _) as [e|configs]; simpl.
  { eexists. rewrite <- app_assoc. simpl. split; [reflexivity|].
    split; [reflexivity|]. split; repeat constructor; discriminate. }
  destruct (frontend_init ext configs _); simpl.
  { eexists. rewrite <- !app_assoc. simpl. split; [reflexivity|].
    split; [reflexivity|]. split; repeat constructor; discriminate. }
  destruct (model_load ext configs _); simpl.
  { eexists. rewrite <- !app_assoc. simpl. split; [reflexivity|].
    split; [reflexivity|]. split; repeat constructor; discriminate. }
  eexists. rewrite <- !app_assoc. simpl. split; [reflexivity|].
  split; [reflexivity|]. split; repeat constructor; discriminate.
Qed.

Lemma load_cache (st st1 : State) r :
  load ext st = (r, st1) -> cache st1 = cache st.
Proof.
  intros H. destruct (load_footprint st) as (evs & _ & Hc & _).
  rewrite H in Hc. exact Hc.
Qed.

(** ** The executor past the cache probe *)

Lemma run_after_load (segments : list TTSSegment) (ctx : TTSPipelineContext)
    (st st1 : State) h (seg0 : TTSSegment) (spk : TTSSpeaker) :
  cache st !! cache_key ext segments ctx = None ->
  load ext st = (inr h, st1) ->
  head segments = Some seg0 ->
  seg_spk seg0 = Some spk ->
  generate_batch_stream ext segments ctx st =
  (infer_func <-
     lift (select_infer_func ext spk (seg_emotion seg0)
             (instruct_text_of (seg_emotion seg0) (seg_prompt2 seg0)
                (gender spk))) ;;
   results <-
     synth_loop ext infer_func (seg_infer_seed seg0) ctx segments [] ;;
   set_cache ext segments ctx results ;;;
   ret [results]) st1.
Proof.
  intros Hmiss Hload Hhd Hspk.
  unfold generate_batch_stream, get_cache.
  unfold bind at 1 2. unfold get, ret. simpl. rewrite Hmiss.
  unfold bind at 1. rewrite Hload.
  destruct segments as [|s segs]; [discriminate|].
  injection Hhd as ->. rewrite Hspk. reflexivity.
Qed.

(** Past the selection, a batch only talks to the engine through the
    selected strategy, and to the cache. *)
Lemma run_selected_trace (f : InferFunc) (seed : Z) (ctx : TTSPipelineContext)
    (segments : list TTSSegment) (st1 : State) :
  exists evs,
    trace (snd ((results <- synth_loop ext f seed ctx segments [] ;;
                 set_cache ext segments ctx results ;;;
                 ret [results]) st1)) = trace st1 ++ evs /\
    Forall (fun ev => is_strategy_event (strategy_of f) ev \/
                      exists k v, ev = EvSetCache k v) evs.
Proof.
  destruct (traced_synth_loop f seed ctx segments [] st1)
    as (evs & g & r & HP & H).
  specialize (H (trace st1)). rewrite set_trace_id in H.
  unfold bind at 1. rewrite H. destruct r as [e|results].
  - exists evs. split; [reflexivity|].
    eapply Forall_impl; [exact HP|]. intros ev Hev. left. exact Hev.
  - exists (evs ++ [EvSetCache (cache_key ext segments ctx) results]).
    split; [simpl; rewrite app_assoc; reflexivity|].
    apply Forall_app. split.
    + eapply Forall_impl; [exact HP|]. intros ev Hev. left. exact Hev.
    + constructor; [right; eauto|constructor].
Qed.

Lemma generate_batch_of_stream (segments : list TTSSegment)
    (ctx : TTSPipelineContext) (st st' : State) :
  (forall v, generate_batch_stream ext segments ctx st = (inr [v], st') ->
             generate_batch ext segments ctx st = (inr v, st')) /\
  (forall e, generate_batch_stream ext segments ctx st = (inl e, st') ->
             generate_batch ext segments ctx st = (inl e, st')).
Proof.
  split; intros x H; unfold generate_batch, bind; rewrite H; reflexivity.
Qed.

(** ** The claims *)

(** C1, as amended.  The reference clip for the requested emotion is
    resolved before the embedding is tested.  For a speaker with an
    embedding: when that lookup returns (no clip carries the emotion, or
    the first one that does is decoded and resampled) the selector binds
    [inference_instruct] to the embedding and the instruct text, whatever
    the clips are; when decoding or resampling the clip raises, the
    selector raises that error and binds nothing.  The selector returns no
    cross-lingual and no SFT binding, and a zero-shot binding only for a
    speaker without embedding.  For a batch past the cache probe and
    [load], the run is accordingly the loop over the Instruct binding,
    and all it does to the outside is Instruct engine calls and a cache
    write, or it raises the helper's error in the state [load] left. *)
Theorem instruct_selected_when_embedding_resolves
    (spk : TTSSpeaker) (emo it : string) :
  (forall e,
     spk_to_embedding spk = Some e ->
     match spk_to_ref_wav ext spk emo with
     | inr _ => select_infer_func ext spk emo it = inr (PartialInstruct e it)
     | inl err => select_infer_func ext spk emo it = inl err
     end) /\
  (forall f,
     select_infer_func ext spk emo it = inr f ->
     strategy_of f <> CrossLingual /\ strategy_of f <> SFT /\
     (strategy_of f = ZeroShot -> spk_to_embedding spk = None)) /\
  (forall segments ctx (st st1 : State) h seg0 e,
     cache st !! cache_key ext segments ctx = None ->
     load ext st = (inr h, st1) ->
     head segments = Some seg0 ->
     seg_spk seg0 = Some spk ->
     spk_to_embedding spk = Some e ->
     let f :=
       PartialInstruct e
         (instruct_text_of (seg_emotion seg0) (seg_prompt2 seg0) (gender spk))
     in
     match spk_to_ref_wav ext spk (seg_emotion seg0) with
     | inr _ =>
         generate_batch_stream ext segments ctx st =
           (results <-
              synth_loop ext f (seg_infer_seed seg0) ctx segments [] ;;
            set_cache ext segments ctx results ;;;
            ret [results]) st1 /\
         exists evs,
           trace (snd (generate_batch_stream ext segments ctx st)) =
             trace st1 ++ evs /\
           Forall (fun ev => is_strategy_event Instruct ev \/
                             exists k v, ev = EvSetCache k v) evs
     | inl err =>
         generate_batch_stream ext segments ctx st = (inl err, st1) /\
         generate_batch ext segments ctx st = (inl err, st1)
     end).
Proof.
  split; [|split].
  - intros e He. rewrite (select_with_embedding _ emo it _ He).
    destruct (spk_to_ref_wav ext spk emo); reflexivity.
  - intros f Hf. pose proof (select_outcomes spk emo it) as H.
    rewrite Hf in H. destruct f; simpl; try contradiction.
    + repeat split; try discriminate. tauto.
    + repeat split; discriminate.
  - intros segments ctx st st1 h seg0 e Hmiss Hload Hhd Hspk He f.
    pose proof (run_after_load _ _ _ _ _ _ _ Hmiss Hload Hhd Hspk) as Hrun.
    rewrite (select_with_embedding _ _ _ _ He) in Hrun.
    destruct (spk_to_ref_wav ext spk (seg_emotion seg0)) as [err|ref].
    + assert (Hstream :
        generate_batch_stream ext segments ctx st = (inl err, st1))
        by (rewrite Hrun; reflexivity).
      split; [exact Hstream|apply generate_batch_of_stream; exact Hstream].
    + assert (Hstream :
        generate_batch_stream ext segments ctx st =
        (results <-
           synth_loop ext f (seg_infer_seed seg0) ctx segments [] ;;
         set_cache ext segments ctx results ;;;
         ret [results]) st1)
        by (rewrite Hrun; reflexivity).
      split; [exact Hstream|]. rewrite Hstream.
      apply (run_selected_trace f).
Qed.

(** C2, as amended.  Past the cache probe and [load]: when the first
    segment's speaker (if there is one) has no embedding and no reference
    clip whose emotion tag equals the requested emotion and whose
    transcript is non-empty, the run raises, in the state [load] left:
    nothing is synthesized and nothing is cached.  The error is the
    conditioning error when there is no speaker or when the reference
    lookup returns, which it does in particular when no clip carries the
    requested emotion; a clip that carries the emotion with an empty
    transcript is decoded first, and when decoding or resampling it
    raises, the run raises that error instead. *)
Theorem missing_conditioning_raises
    (segments : list TTSSegment) (ctx : TTSPipelineContext) (st st1 : State)
    (h : CosyVoiceModel * option CosyVoiceFrontEnd) (seg0 : TTSSegment) :
  cache st !! cache_key ext segments ctx = None ->
  load ext st = (inr h, st1) ->
  head segments = Some seg0 ->
  (forall spk,
     seg_spk seg0 = Some spk ->
     spk_to_embedding spk = None /\
     forall clip, In clip (refs spk) -> ~ usable_clip (seg_emotion seg0) clip) ->
  exists e,
    generate_batch_stream ext segments ctx st = (inl e, st1) /\
    generate_batch ext segments ctx st = (inl e, st1) /\
    match seg_spk seg0 with
    | None => e = ValueError "spk is None"
    | Some spk =>
        match spk_to_ref_wav ext spk (seg_emotion seg0) with
        | inr _ => e = ValueError "spk_embedding is None"
        | inl err => e = err
        end
    end /\
    ((forall spk,
        seg_spk seg0 = Some spk ->
        exists ref, spk_to_ref_wav ext spk (seg_emotion seg0) = inr ref) ->
     ConditioningError e) /\
    ((forall spk clip,
        seg_spk seg0 = Some spk ->
        In clip (refs spk) -> emotion clip <> seg_emotion seg0) ->
     ConditioningError e).
Proof.
  intros Hmiss Hload Hhd Hnone.
  destruct (seg_spk seg0) as [spk|] eqn:Hspk.
  - destruct (Hnone spk eq_refl) as [Hemb Hclips].
    pose proof (run_after_load _ _ _ _ _ _ _ Hmiss Hload Hhd Hspk) as Hrun.
    rewrite (select_no_conditioning _ _ _ Hemb Hclips) in Hrun.
    pose proof (spk_to_ref_wav_cases spk (seg_emotion seg0)) as Hcases.
    destruct (spk_to_ref_wav ext spk (seg_emotion seg0)) as [err|ref] eqn:Href.
    + exists err.
      assert (Hstream :
        generate_batch_stream ext segments ctx st = (inl err, st1))
        by (rewrite Hrun; reflexivity).
      split; [exact Hstream|].
      split; [apply generate_batch_of_stream; exact Hstream|].
      split; [reflexivity|]. split.
      * intros Hret. destruct (Hret spk eq_refl) as [ref Hr]. congruence.
      * intros Hemo.
        rewrite (get_ref_none spk (seg_emotion seg0)) in Hcases
          by (intros clip Hin; exact (Hemo spk clip eq_refl Hin)).
        congruence.
    + exists (ValueError "spk_embedding is None").
      assert (Hstream :
        generate_batch_stream ext segments ctx st =
        (inl (ValueError "spk_embedding is None"), st1))
        by (rewrite Hrun; reflexivity).
      split; [exact Hstream|].
      split; [apply generate_batch_of_stream; exact Hstream|].
      split; [reflexivity|]. split; intros _; right; reflexivity.
  - exists (ValueError "spk is None").
    assert (Hstream :
      generate_batch_stream ext segments ctx st =
      (inl (ValueError "spk is None"), st1)).
    { unfold generate_batch_stream, get_cache.
      unfold bind at 1 2. unfold get, ret. simpl. rewrite Hmiss.
      unfold bind at 1. rewrite Hload.
      destruct segments as [|s segs]; [discriminate|].
      injection Hhd as ->. rewrite Hspk. reflexivity. }
    split; [exact Hstream|].
    split; [apply generate_batch_of_stream; exact Hstream|].
    split; [reflexivity|]. split; intros _; left; reflexivity.
Qed.

(** C3.  Past the cache probe and [load], with a strategy selected: when
    the cancellation flag reads false while fewer than [k] segments are
    done and true once [k] are done ([k] below the batch size), and the
    first [k] inference calls return [outs], the run returns exactly the
    [k] results [(22050, out)] in input order and stores that list in the
    cache under the key of the batch and context; the only other effects
    are the engine calls of the selected strategy. *)
Theorem cancellation_keeps_partial_results
    (segments : list TTSSegment) (ctx : TTSPipelineContext) (st st1 : State)
    (h : CosyVoiceModel * option CosyVoiceFrontEnd)
    (seg0 : TTSSegment) (spk : TTSSpeaker) (f : InferFunc)
    (k : nat) (outs : list Tensor) :
  cache st !! cache_key ext segments ctx = None ->
  load ext st = (inr h, st1) ->
  head segments = Some seg0 ->
  seg_spk seg0 = Some spk ->
  select_infer_func ext spk (seg_emotion seg0)
    (instruct_text_of (seg_emotion seg0) (seg_prompt2 seg0) (gender spk))
    = inr f ->
  k < length segments ->
  (forall i, i < k -> ctx_stop ctx i = false) ->
  ctx_stop ctx k = true ->
  Forall2
    (fun seg out =>
       infer_result ext st1 f (seg_infer_seed seg0) (seg_text seg) = inr out)
    (take k segments) outs ->
  let results := List.map (pair sr) outs in
  exists st',
    generate_batch_stream ext segments ctx st = (inr [results], st') /\
    generate_batch ext segments ctx st = (inr results, st') /\
    length results = k /\
    cache st' = <[cache_key ext segments ctx := results]> (cache st) /\
    exists evs,
      trace st' =
        trace st1 ++ evs ++ [EvSetCache (cache_key ext segments ctx) results] /\
      Forall (is_strategy_event (strategy_of f)) evs.
Proof.
  intros Hmiss Hload Hhd Hspk Hsel Hk Hrun Hstop Houts results.
  pose proof (Forall2_length _ _ _ Houts) as Hlen.
  rewrite length_take in Hlen.
  destruct (synth_loop_prefix f (seg_infer_seed seg0) ctx st1
              (take k segments) (drop k segments) outs Houts [])
    as (evs & HP & Hloop).
  { intros i Hi. simpl. apply Hrun. rewrite length_take in Hi. lia. }
  { right. simpl. rewrite length_take. replace (k `min` length segments) with k by lia. exact Hstop. }
  rewrite take_drop in Hloop.
  assert (Hstream :
    generate_batch_stream ext segments ctx st =
    (inr [results],
     set_trace ((trace st1 ++ evs) ++
                [EvSetCache (cache_key ext segments ctx) results])
       (set_cache_map (<[cache_key ext segments ctx := results]> (cache st1))
          st1))).
  { rewrite (run_after_load _ _ _ _ _ _ _ Hmiss Hload Hhd Hspk).
    rewrite Hsel. unfold bind at 1. unfold lift.
    unfold bind at 1. rewrite <- (set_trace_id st1) at 1. rewrite Hloop.
    reflexivity. }
  eexists. split; [exact Hstream|].
  split; [apply generate_batch_of_stream; exact Hstream|].
  split; [unfold results; rewrite length_map; lia|].
  split; [simpl; rewrite (load_cache _ _ _ Hload); reflexivity|].
  exists evs. split; [simpl; rewrite <- app_assoc; reflexivity|exact HP].
Qed.

(** C4.  On a cache hit the run returns the stored value and leaves the
    whole state as it found it, for any batch, the empty one and one with
    no speaker included.  The trace is part of the state and [load],
    every engine call and [set_cache] append to it ([load_footprint]):
    none of them took place. *)
Theorem cache_hit_short_circuits
    (segments : list TTSSegment) (ctx : TTSPipelineContext) (st : State)
    (v : list NP_AUDIO) :
  cache st !! cache_key ext segments ctx = Some v ->
  generate_batch_stream ext segments ctx st = (inr [v], st) /\
  generate_batch ext segments ctx st = (inr v, st).
Proof.
  intros Hhit.
  assert (Hstream : generate_batch_stream ext segments ctx st = (inr [v], st)).
  { unfold generate_batch_stream, get_cache, bind, get, ret. simpl.
    rewrite Hhit. reflexivity. }
  split; [exact Hstream|apply generate_batch_of_stream; exact Hstream].
Qed.

(** C5.  After a [load] that returned the handle pair [h], a second
    [load] returns the same [h] and changes nothing but the trace, which
    records the call alone.  If the singleton was loaded from the start,
    the first call already did so; if not, the first call did the
    initialisation work once: one configuration read, one front-end
    construction, one weight load, three device transfers, one
    reclamation. *)
Theorem load_idempotent (st st1 : State)
    (h : CosyVoiceModel * option CosyVoiceFrontEnd) :
  load ext st = (inr h, st1) ->
  load ext st1 = (inr h, set_trace (trace st1 ++ [EvLoad]) st1) /\
  match cls_model st with
  | Some m =>
      h = (m, cls_frontend st) /\ st1 = set_trace (trace st ++ [EvLoad]) st
  | None =>
      trace st1 =
        trace st ++
        EvLoad :: init_events (model_dir st) (device st) (dtype st)
  end.
Proof.
  intros H. split.
  - destruct (load_publishes _ _ _ H) as [Hm Hf].
    rewrite (load_loaded _ _ Hm), Hf. destruct h; reflexivity.
  - destruct (cls_model st) as [m|] eqn:E.
    + rewrite (load_loaded _ _ E) in H. injection H as <- <-. auto.
    + apply (load_fresh _ _ _ E) in H. tauto.
Qed.

(** C6, as amended.  For a batch synthesized through Instruct, the
    instruct text is the emotion, else the secondary prompt, else the
    empty string, prefixed with "female voice. " when the gender string
    is exactly "female" or contains "女", and with "male voice. "
    otherwise. *)
Theorem instruct_text_gender_prefix
    (spk : TTSSpeaker) (seg0 : TTSSegment) (e : Tensor) (it : string) :
  select_infer_func ext spk (seg_emotion seg0)
    (instruct_text_of (seg_emotion seg0) (seg_prompt2 seg0) (gender spk))
    = inr (PartialInstruct e it) ->
  exists base : string,
    (seg_emotion seg0 <> "" -> base = seg_emotion seg0) /\
    (seg_emotion seg0 = "" -> seg_prompt2 seg0 <> "" ->
     base = seg_prompt2 seg0) /\
    (seg_emotion seg0 = "" -> seg_prompt2 seg0 = "" -> base = "") /\
    (gender spk = "female" \/ occurs_in "女" (gender spk) ->
     it = ("female voice. " ++ base)%string) /\
    (~ (gender spk = "female" \/ occurs_in "女" (gender spk)) ->
     it = ("male voice. " ++ base)%string).
Proof.
  intros Hsel.
  pose proof (select_outcomes spk (seg_emotion seg0)
    (instruct_text_of (seg_emotion seg0) (seg_prompt2 seg0) (gender spk))) as H.
  rewrite Hsel in H. destruct H as (_ & -> & _).
  exists (str_or (str_or (seg_emotion seg0) (seg_prompt2 seg0)) "").
  unfold instruct_text_of.
  destruct (str_or_cases (seg_emotion seg0) (seg_prompt2 seg0)) as [Ha Hb].
  repeat split.
  - intros Hne. rewrite (Ha Hne). destruct (seg_emotion seg0); simpl; congruence.
  - intros He Hp. rewrite (Hb He). destruct (seg_prompt2 seg0); simpl; congruence.
  - intros He Hp. rewrite (Hb He), Hp. reflexivity.
  - intros Hf. apply is_female_spec in Hf. rewrite Hf. reflexivity.
  - intros Hf. destruct (is_female (gender spk)) eqn:E; [|reflexivity].
    apply is_female_spec in E. contradiction.
Qed.

(** C7.  With a front-end whose [instruct] flag is set,
    [inference_cross_lingual] raises the unsupported-mode error and
    leaves the state untouched (no engine call), while
    [inference_instruct] is its unguarded synthesis loop; with the flag
    unset the roles are swapped. *)
Theorem mode_guards (st : State) (fe : CosyVoiceFrontEnd)
    (tts_texts : list string) (prompt_speech_16k spk_embedding : Tensor)
    (instruct_text : string) :
  self_frontend st = Some fe ->
  (if instruct fe
   then
     (exists e,
        UnsupportedModeError (model_dir st) e /\
        inference_cross_lingual ext tts_texts prompt_speech_16k st
          = (inl e, st)) /\
     inference_instruct ext tts_texts spk_embedding instruct_text st =
       (tts_speeches <-
          synth_texts ext Instruct "frontend_instruct"
            (fun fe text =>
               frontend_instruct ext fe text spk_embedding instruct_text)
            tts_texts ;;
        torch_concat tts_speeches) st
   else
     (exists e,
        UnsupportedModeError (model_dir st) e /\
        inference_instruct ext tts_texts spk_embedding instruct_text st
          = (inl e, st)) /\
     inference_cross_lingual ext tts_texts prompt_speech_16k st =
       (tts_speeches <-
          synth_texts ext CrossLingual "frontend_cross_lingual"
            (fun fe text =>
               frontend_cross_lingual ext fe text prompt_speech_16k)
            tts_texts ;;
        torch_concat tts_speeches) st).
Proof.
  intros Hfe.
  unfold inference_cross_lingual, inference_instruct, self_frontend_attr,
    bind, get, ret, raise.
  simpl. rewrite Hfe.
  destruct (instruct fe); simpl; (split; [|reflexivity]).
  - eexists. split; [left; reflexivity|reflexivity].
  - eexists. split; [right; reflexivity|reflexivity].
Qed.

(** C8, as amended.  For a batch synthesized through ZeroShot, the
    prompt transcript and waveform come from the clip [get_ref] returned
    for the requested emotion: the waveform is the clip's bytes decoded
    and normalized to 16 kHz, both steps having returned, passed on as it
    is. *)
Theorem zero_shot_prompt_is_normalized_clip
    (spk : TTSSpeaker) (emo it t : string) (w : Tensor) :
  select_infer_func ext spk emo it = inr (PartialZeroShot t w) ->
  exists clip wav0 sr1,
    get_ref spk (fun x => String.eqb (emotion x) emo) = Some clip /\
    In clip (refs spk) /\ emotion clip = emo /\
    t = text clip /\
    bytes_to_librosa_array ext (wav clip) (wav_sr clip) = inr wav0 /\
    normalize_audio ext (wav_sr clip, wav0) target_sr = inr (sr1, w).
Proof.
  intros Hsel. pose proof (select_outcomes spk emo it) as H.
  rewrite Hsel in H. destruct H as (_ & Href & _).
  destruct (spk_to_ref_wav_inv _ _ _ _ Href)
    as (clip & wav0 & sr1 & Hg & Ht & Hd & Hn).
  exists clip, wav0, sr1.
  destruct (get_ref_sound _ _ _ Hg) as [Hin Hemo]. auto 10.
Qed.

(** C9.  Past the cache probe and [load], with a strategy selected: when
    the first [k] inference calls return and the next one raises [e]
    (no cancellation up to there), the run raises [e], for the generator
    and for [generate_batch] alike; no result list is returned and the
    cache is left as it was, no [set_cache] being among the effects. *)
Theorem inference_error_discards_batch
    (segments : list TTSSegment) (ctx : TTSPipelineContext) (st st1 : State)
    (h : CosyVoiceModel * option CosyVoiceFrontEnd)
    (seg0 bad : TTSSegment) (spk : TTSSpeaker) (f : InferFunc)
    (k : nat) (outs : list Tensor) (e : exn) :
  cache st !! cache_key ext segments ctx = None ->
  load ext st = (inr h, st1) ->
  head segments = Some seg0 ->
  seg_spk seg0 = Some spk ->
  select_infer_func ext spk (seg_emotion seg0)
    (instruct_text_of (seg_emotion seg0) (seg_prompt2 seg0) (gender spk))
    = inr f ->
  (forall i, i <= k -> ctx_stop ctx i = false) ->
  Forall2
    (fun seg out =>
       infer_result ext st1 f (seg_infer_seed seg0) (seg_text seg) = inr out)
    (take k segments) outs ->
  segments !! k = Some bad ->
  infer_result ext st1 f (seg_infer_seed seg0) (seg_text bad) = inl e ->
  exists st',
    generate_batch_stream ext segments ctx st = (inl e, st') /\
    generate_batch ext segments ctx st = (inl e, st') /\
    length outs = k /\
    cache st' = cache st /\
    exists evs,
      trace st' = trace st1 ++ evs /\
      Forall (is_strategy_event (strategy_of f)) evs.
Proof.
  intros Hmiss Hload Hhd Hspk Hsel Hrun Houts Hbad He.
  pose proof (Forall2_length _ _ _ Houts) as Hlen.
  pose proof (lookup_lt_Some _ _ _ Hbad) as Hk.
  rewrite length_take in Hlen.
  destruct (synth_loop_error f (seg_infer_seed seg0) ctx st1
              (take k segments) (drop (S k) segments) outs bad e Houts He [])
    as (evs & HP & Hloop).
  { intros i Hi. simpl. apply Hrun. rewrite length_take in Hi. lia. }
  rewrite (take_drop_middle _ _ _ Hbad) in Hloop.
  assert (Hstream :
    generate_batch_stream ext segments ctx st =
    (inl e, set_trace (trace st1 ++ evs) st1)).
  { rewrite (run_after_load _ _ _ _ _ _ _ Hmiss Hload Hhd Hspk).
    rewrite Hsel. unfold bind at 1. unfold lift.
    unfold bind at 1. rewrite <- (set_trace_id st1) at 1. rewrite Hloop.
    reflexivity. }
  eexists. split; [exact Hstream|].
  split; [apply generate_batch_of_stream; exact Hstream|].
  split; [lia|].
  split; [simpl; apply (load_cache _ _ _ Hload)|].
  exists evs. split; [reflexivity|exact HP].
Qed.

(** C10, as amended.  The first model id of [model_ids] under which the
    speaker has a token record decides: [spk_to_embedding] is the first
    vector of that record's embedding, if any.  When that embedding is
    empty the result is [None] whatever later ids hold, and the selection
    is the one of a speaker without embedding: the conditioning error
    when no clip carries the requested emotion, else the error of the
    decoder or the resampler on the first such clip if one of them
    raises, else zero-shot on that clip's transcript and normalized
    waveform when the transcript is non-empty and the conditioning error
    when it is empty.  A batch of such a speaker, past the cache probe
    and [load], makes no engine call other than zero-shot ones. *)
Theorem first_token_record_decides
    (spk : TTSSpeaker) (pre post : list string) (id : string)
    (cfg : DcSpkVoiceToken) :
  model_ids = pre ++ id :: post ->
  Forall (fun j => get_token spk j = None) pre ->
  get_token spk id = Some cfg ->
  spk_to_embedding spk = head (embedding cfg) /\
  (embedding cfg = [] ->
   spk_to_embedding spk = None /\
   (forall emo it,
      select_infer_func ext spk emo it =
      match get_ref spk (fun x => String.eqb (emotion x) emo) with
      | None => inl (ValueError "spk_embedding is None")
      | Some clip =>
          match bytes_to_librosa_array ext (wav clip) (wav_sr clip) with
          | inl err => inl err
          | inr wav0 =>
              match normalize_audio ext (wav_sr clip, wav0) target_sr with
              | inl err => inl err
              | inr (_, w) =>
                  if str_truthy (text clip)
                  then inr (PartialZeroShot (text clip) w)
                  else inl (ValueError "spk_embedding is None")
              end
          end
      end) /\
   (forall segments ctx (st st1 : State) h seg0,
      cache st !! cache_key ext segments ctx = None ->
      load ext st = (inr h, st1) ->
      head segments = Some seg0 ->
      seg_spk seg0 = Some spk ->
      exists evs,
        trace (snd (generate_batch_stream ext segments ctx st)) =
          trace st1 ++ evs /\
        Forall (fun ev => is_strategy_event ZeroShot ev \/
                          exists k v, ev = EvSetCache k v) evs)).
Proof.
  intros Hids Hpre Hcfg.
  assert (Hemb : spk_to_embedding spk = head (embedding cfg)).
  { unfold model_ids in Hids.
    destruct pre as [|p0 [|p1 [|p2 [|p3 pre]]]]; simpl in Hids;
      try discriminate.
    - injection Hids as <- _. apply spk_to_embedding_own. exact Hcfg.
    - injection Hids as <- <- _. inversion Hpre; subst.
      apply spk_to_embedding_alias1; assumption.
    - injection Hids as <- <- <- _.
      inversion Hpre as [|? ? H0 Hpre']; subst.
      inversion Hpre'; subst.
      apply spk_to_embedding_alias2; assumption. }
  split; [exact Hemb|]. intros Hempty.
  rewrite Hempty in Hemb. simpl in Hemb. split; [exact Hemb|]. split.
  - intros emo it. rewrite select_without_embedding by exact Hemb.
    pose proof (spk_to_ref_wav_cases spk emo) as H.
    destruct (get_ref spk _) as [clip|]; [|rewrite H; reflexivity].
    destruct (bytes_to_librosa_array ext _ _) as [err|wav0];
      [rewrite H; reflexivity|].
    destruct (normalize_audio ext _ _) as [err|[sr1 w]];
      rewrite H; reflexivity.
  - intros segments ctx st st1 h seg0 Hmiss Hload Hhd Hspk.
    rewrite (run_after_load _ _ _ _ _ _ _ Hmiss Hload Hhd Hspk).
    pose proof (select_outcomes spk (seg_emotion seg0)
      (instruct_text_of (seg_emotion seg0) (seg_prompt2 seg0) (gender spk)))
      as H.
    destruct (select_infer_func ext spk _ _) as [e|f].
    + exists []. split; [simpl; rewrite app_nil_r; reflexivity|constructor].
    + destruct f as [| | |e0 it0]; try contradiction.
      * apply (run_selected_trace (PartialZeroShot _ _)).
      * destruct H as [H _]. congruence.
Qed.

(** ** Beyond the claims: the constructor and the model lifecycle *)

(** X3.  The constructor's directory is always one of the three
    candidates: the first one that exists, every candidate before it
    being absent, or the first candidate when none exists. *)
Theorem init_model_dir_first_existing :
  exists pre post,
    candidate_paths = pre ++ init_model_dir ext :: post /\
    Forall (fun p => path_exists ext p = false) pre /\
    (path_exists ext (init_model_dir ext) = true \/
     (Forall (fun p => path_exists ext p = false) candidate_paths /\
      init_model_dir ext = "models/CosyVoice_300M")).
Proof.
  unfold init_model_dir, candidate_paths. simpl.
  destruct (path_exists ext "models/CosyVoice_300M") eqn:E1.
  { exists [], ["models/CosyVoice_300M_Instruct"; "models/CosyVoice_300M_SFT"].
    simpl. auto. }
  destruct (path_exists ext "models/CosyVoice_300M_Instruct") eqn:E2.
  { exists ["models/CosyVoice_300M"], ["models/CosyVoice_300M_SFT"].
    simpl. auto. }
  destruct (path_exists ext "models/CosyVoice_300M_SFT") eqn:E3.
  { exists ["models/CosyVoice_300M"; "models/CosyVoice_300M_Instruct"], [].
    simpl. auto. }
  exists [], ["models/CosyVoice_300M_Instruct"; "models/CosyVoice_300M_SFT"].
  simpl. split; [reflexivity|]. split; [constructor|]. right. auto.
Qed.

Lemma load_fresh_result (st st1 : State)
    (h : CosyVoiceModel * option CosyVoiceFrontEnd) :
  cls_model st = None ->
  load ext st = (inr h, st1) ->
  let fe :=
    {| fe_id := next_id st; instruct := true; fe_device := device st |} in
  let m :=
    {| m_id := S (next_id st); m_device := device st; m_dtype := dtype st |} in
  h = (m, Some fe) /\
  st1 =
    set_cls (Some m) (Some fe)
      (set_trace
         (trace st ++
          EvLoad :: init_events (model_dir st) (device st) (dtype st))
         (set_self_model (Some m)
            (set_next_id (S (S (next_id st)))
               (set_self_frontend (Some fe) st)))).
Proof.
  intros H. unfold load, bind, log, modify, get, ret, lift, opt_raise,
    fresh_id, raise. simpl. rewrite H.
  destruct (read_config ext _) as [e|configs]; [discriminate|].
  destruct (frontend_init ext configs _); [discriminate|]. simpl.
  destruct (model_load ext configs _); [discriminate|]. simpl.
  intros [= <- <-]. split; [reflexivity|].
  simpl. rewrite <- !app_assoc. reflexivity.
Qed.


(** X5.  The engine a fresh [load] of this instance leaves behind is
    instruct-capable: from then on [inference_cross_lingual] raises the
    unsupported-mode error on every input, without an engine call. *)
Theorem cross_lingual_unusable_after_load (st st1 : State)
    (h : CosyVoiceModel * option CosyVoiceFrontEnd)
    (tts_texts : list string) (prompt_speech_16k : Tensor) :
  cls_model st = None ->
  load ext st = (inr h, st1) ->
  inference_cross_lingual ext tts_texts prompt_speech_16k st1 =
    (inl (ValueError
            (model_dir st ++ " do not support cross_lingual inference")),
     st1).
Proof.
  intros Hc Hl. destruct (load_fresh_result _ _ _ Hc Hl) as [_ ->].
  reflexivity.
Qed.

(** X6.  [unload] looks at the class slot only.  With an empty slot it
    changes nothing, even if the instance still holds handles; otherwise
    it clears the four attributes and triggers one reclamation.  Either
    way nothing is loaded afterwards, the cache is kept, and a second
    [unload] changes nothing. *)
Theorem unload_clears_and_is_idempotent (st : State) :
  let st' := snd (unload st) in
  fst (unload st) = inr tt /\
  match cls_model st with
  | None => st' = st
  | Some _ =>
      self_model st' = None /\ self_frontend st' = None /\
      cls_frontend st' = None /\ trace st' = trace st ++ [EvTorchGC]
  end /\
  cls_model st' = None /\ cache st' = cache st /\
  unload st' = (inr tt, st').
Proof.
  unfold unload, bind, get, ret, modify, log. simpl.
  destruct (cls_model st) eqn:E; simpl.
  - repeat split; reflexivity.
  - rewrite E. repeat split; reflexivity.
Qed.

(** X7.  After [unload], a [load] that succeeds initialises the engine
    again, publishes what it built and hands out new objects, the model
    and the front-end alike: their identities were never used before, so
    they differ from every handle allocated earlier. *)
Theorem reload_after_unload_is_fresh (st st2 : State)
    (m_old m : CosyVoiceModel) (fe : option CosyVoiceFrontEnd) :
  cls_model st = Some m_old ->
  m_id m_old < next_id st ->
  load ext (snd (unload st)) = (inr (m, fe), st2) ->
  m <> m_old /\
  next_id st <= m_id m /\
  (forall m', m_id m' < next_id st -> m <> m') /\
  (exists fe',
     fe = Some fe' /\ next_id st <= fe_id fe' /\
     (forall fe_old, fe_id fe_old < next_id st -> fe' <> fe_old) /\
     (forall fe_old, cls_frontend st = Some fe_old ->
                     fe_id fe_old < next_id st -> fe <> cls_frontend st)) /\
  cls_model st2 = Some m /\ cls_frontend st2 = fe /\
  trace st2 =
    trace st ++ EvTorchGC :: EvLoad ::
    init_events (model_dir st) (device st) (dtype st).
Proof.
  intros Hc Hid Hl.
  assert (Hu : cls_model (snd (unload st)) = None).
  { unfold unload, bind, get, ret, modify, log. simpl. rewrite Hc.
    reflexivity. }
  destruct (load_publishes _ _ _ Hl) as [Hpm Hpf]. simpl in Hpm, Hpf.
  destruct (load_fresh_result _ _ _ Hu Hl) as [Hh ->].
  unfold unload, bind, get, ret, modify, log in Hh |- *. simpl in Hh |- *.
  rewrite Hc in Hh |- *. simpl in Hh |- *.
  injection Hh as -> ->. simpl.
  split; [intros <-; simpl in Hid; lia|].
  split; [lia|].
  split; [intros m' Hm' <-; simpl in Hm'; lia|].
  split.
  { eexists. split; [reflexivity|]. simpl. split; [lia|]. split.
    - intros fe_old Ho <-. simpl in Ho. lia.
    - intros fe_old Ho Hlt Heq. rewrite Ho in Heq.
      injection Heq as Heq. rewrite <- Heq in Hlt. simpl in Hlt. lia. }
  split; [reflexivity|]. split; [reflexivity|].
  rewrite <- app_assoc. reflexivity.
Qed.

(** ** Beyond the claims: the inference operations *)

Lemma synth_texts_calls (s : Strategy) (attr : string)
    (fc : CosyVoiceFrontEnd -> string -> exn + ModelInput)
    (texts : list string) :
  forall st : State,
    let r := synth_texts ext s attr fc texts st in
    (exists n, trace (snd r) = trace st ++ take n (calls_of s texts)) /\
    cache (snd r) = cache st /\
    (forall outs, fst r = inr outs ->
       length outs = length texts /\
       trace (snd r) = trace st ++ calls_of s texts).
Proof.
  induction texts as [|t texts IH]; intros st.
  - simpl. split; [exists 0; simpl; rewrite app_nil_r; reflexivity|].
    split; [reflexivity|]. intros outs [= <-].
    split; [reflexivity|]. rewrite app_nil_r. reflexivity.
  - cbn [synth_texts].
    unfold self_frontend_attr, self_model_inference, bind, get, ret, raise,
      log, modify, lift. simpl.
    destruct (self_frontend st) as [fe|]; simpl.
    2:{ split; [exists 0; simpl; rewrite app_nil_r; reflexivity|].
        split; [reflexivity|]. discriminate. }
    destruct (fc fe t) as [e|mi]; simpl.
    { split; [exists 1; reflexivity|]. split; [reflexivity|]. discriminate. }
    destruct (self_model st) as [m|]; simpl.
    2:{ split; [exists 1; reflexivity|]. split; [reflexivity|].
        discriminate. }
    destruct (model_inference ext m (rng st) mi) as [[e|out] g]; simpl.
    { split; [exists 2; rewrite <- app_assoc; reflexivity|].
      split; [reflexivity|]. discriminate. }
    match goal with
    | |- context [synth_texts ext s attr fc texts ?s1] =>
        specialize (IH s1); set (st1 := s1) in *
    end.
    destruct (synth_texts ext s attr fc texts st1) as [[e|outs] st2];
      simpl in IH |- *; destruct IH as ((n & Hn) & Hc & Hok).
    + split; [exists (S (S n)); rewrite Hn; simpl;
              rewrite <- !app_assoc; reflexivity|].
      split; [exact Hc|]. discriminate.
    + split; [exists (S (S n)); rewrite Hn; simpl;
              rewrite <- !app_assoc; reflexivity|].
      split; [exact Hc|]. intros outs' [= <-].
      destruct (Hok outs eq_refl) as [Hlen Htr]. simpl.
      split; [congruence|]. rewrite Htr. simpl.
      rewrite <- !app_assoc. reflexivity.
Qed.

Lemma synth_concat_calls (s : Strategy) (attr : string)
    (fc : CosyVoiceFrontEnd -> string -> exn + ModelInput)
    (texts : list string) (st : State) :
  let r := (tts_speeches <- synth_texts ext s attr fc texts ;;
            torch_concat tts_speeches) st in
  (exists n, trace (snd r) = trace st ++ take n (calls_of s texts)) /\
  cache (snd r) = cache st /\
  (forall out, fst r = inr out ->
     texts <> [] /\ trace (snd r) = trace st ++ calls_of s texts).
Proof.
  destruct (synth_texts_calls s attr fc texts st) as (Hn & Hc & Hok).
  unfold bind.
  destruct (synth_texts ext s attr fc texts st) as [[e|outs] st1];
    simpl in *.
  - split; [exact Hn|]. split; [exact Hc|]. discriminate.
  - destruct (Hok outs eq_refl) as [Hlen Htr].
    destruct outs as [|o outs]; simpl.
    + split; [exact Hn|]. split; [exact Hc|]. discriminate.
    + split; [exact Hn|]. split; [exact Hc|]. intros out _.
      split; [|exact Htr]. intros ->. discriminate.
Qed.

Lemma inference_cross_lingual_run (tts_texts : list string) (w : Tensor)
    (st : State) :
  inference_cross_lingual ext tts_texts w st =
  match self_frontend st with
  | None =>
      (inl (AttributeError "'NoneType' object has no attribute 'instruct'"),
       st)
  | Some fe =>
      if instruct fe
      then (inl (ValueError
                   (model_dir st ++ " do not support cross_lingual inference")),
            st)
      else
        (tts_speeches <-
           synth_texts ext CrossLingual "frontend_cross_lingual"
             (fun fe text => frontend_cross_lingual ext fe text w)
             tts_texts ;;
         torch_concat tts_speeches) st
  end.
Proof.
  unfold inference_cross_lingual, self_frontend_attr, bind, get, ret, raise.
  simpl. destruct (self_frontend st) as [fe|]; [|reflexivity].
  destruct (instruct fe); reflexivity.
Qed.

Lemma inference_instruct_run (tts_texts : list string) (e : Tensor)
    (it : string) (st : State) :
  inference_instruct ext tts_texts e it st =
  match self_frontend st with
  | None =>
      (inl (AttributeError "'NoneType' object has no attribute 'instruct'"),
       st)
  | Some fe =>
      if instruct fe
      then
        (tts_speeches <-
           synth_texts ext Instruct "frontend_instruct"
             (fun fe text => frontend_instruct ext fe text e it)
             tts_texts ;;
         torch_concat tts_speeches) st
      else (inl (ValueError
                   (model_dir st ++ " do not support instruct inference")),
            st)
  end.
Proof.
  unfold inference_instruct, self_frontend_attr, bind, get, ret, raise.
  simpl. destruct (self_frontend st) as [fe|]; [|reflexivity].
  destruct (instruct fe); reflexivity.
Qed.

(** X8.  Each of the four inference operations calls the front-end and
    then the model once per text, in the order of the texts, and stops
    at the first failure: the events it adds are an initial part of that
    sequence of calls, and the whole of it when it returns.  It never
    returns for an empty list of texts, and never touches the cache. *)
Theorem inference_calls_in_order (f : InferFunc) (tts_texts : list string)
    (st : State) :
  let r := call_infer_func ext f tts_texts st in
  (exists n,
     trace (snd r) = trace st ++ take n (calls_of (strategy_of f) tts_texts)) /\
  cache (snd r) = cache st /\
  (forall out, fst r = inr out ->
     tts_texts <> [] /\
     trace (snd r) = trace st ++ calls_of (strategy_of f) tts_texts).
Proof.
  assert (Hnone : forall (s : Strategy) (e : exn),
    let r : (exn + Tensor) * State := (inl e, st) in
    (exists n, trace (snd r) = trace st ++ take n (calls_of s tts_texts)) /\
    cache (snd r) = cache st /\
    (forall out, fst r = inr out ->
       tts_texts <> [] /\ trace (snd r) = trace st ++ calls_of s tts_texts)).
  { intros s e. simpl. split; [exists 0; rewrite app_nil_r; reflexivity|].
    split; [reflexivity|]. discriminate. }
  destruct f as [e|t w|w|e it]; cbn [call_infer_func strategy_of].
  - apply synth_concat_calls.
  - apply synth_concat_calls.
  - rewrite inference_cross_lingual_run.
    destruct (self_frontend st) as [fe|]; [|apply Hnone].
    destruct (instruct fe); [apply Hnone|apply synth_concat_calls].
  - rewrite inference_instruct_run.
    destruct (self_frontend st) as [fe|]; [|apply Hnone].
    destruct (instruct fe); [apply synth_concat_calls|apply Hnone].
Qed.

Lemma seeded_call_without_frontend (f : InferFunc) (seed : Z) (text : string)
    (st : State) :
  self_frontend st = None ->
  exists attr,
    SeedContext ext seed (call_infer_func ext f [text]) st =
    (inl (AttributeError
            ("'NoneType' object has no attribute '" ++ attr ++ "'")), st).
Proof.
  intros H.
  destruct f; unfold SeedContext, call_infer_func, inference_sft,
    inference_zero_shot, inference_cross_lingual, inference_instruct,
    synth_texts, self_frontend_attr, bind, get, ret, raise; simpl;
    rewrite H; simpl; eexists; (f_equal; destruct st; reflexivity).
Qed.

(** X9.  [load] on a singleton that is already loaded does not give the
    instance its handles.  An instance that has none (it was constructed
    before another instance loaded the engine) therefore cannot
    synthesize: on a cache miss, with a speaker that selects a strategy
    and no cancellation, the run raises an attribute error at the first
    segment, having done nothing but record the [load] call. *)
Theorem stale_instance_cannot_synthesize
    (segments : list TTSSegment) (ctx : TTSPipelineContext) (st : State)
    (m : CosyVoiceModel) (seg0 : TTSSegment) (spk : TTSSpeaker)
    (f : InferFunc) :
  cls_model st = Some m ->
  self_frontend st = None ->
  cache st !! cache_key ext segments ctx = None ->
  head segments = Some seg0 ->
  seg_spk seg0 = Some spk ->
  select_infer_func ext spk (seg_emotion seg0)
    (instruct_text_of (seg_emotion seg0) (seg_prompt2 seg0) (gender spk))
    = inr f ->
  ctx_stop ctx 0 = false ->
  self_frontend (snd (load ext st)) = None /\
  exists attr,
    generate_batch_stream ext segments ctx st =
    (inl (AttributeError
            ("'NoneType' object has no attribute '" ++ attr ++ "'")),
     set_trace (trace st ++ [EvLoad]) st).
Proof.
  intros Hc Hf Hmiss Hhd Hspk Hsel Hstop.
  pose proof (load_loaded _ _ Hc) as Hl.
  split; [rewrite Hl; exact Hf|].
  destruct (seeded_call_without_frontend f (seg_infer_seed seg0)
              (seg_text seg0) (set_trace (trace st ++ [EvLoad]) st) Hf)
    as [attr Hcall].
  exists attr.
  rewrite (run_after_load _ _ _ _ _ _ _ Hmiss Hl Hhd Hspk).
  rewrite Hsel. unfold bind at 1. unfold lift.
  destruct segments as [|s rest]; [discriminate|]. injection Hhd as ->.
  cbn [synth_loop length]. rewrite Hstop.
  unfold bind at 1 2. rewrite Hcall. reflexivity.
Qed.

(** ** Beyond the claims: the tokenizer entry points *)

Section TokenizerFacts.

Variable tokenizer_encode : CosyVoiceFrontEnd -> string -> exn + list Z.
Variable tokenizer_decode : CosyVoiceFrontEnd -> list Z -> exn + string.

(** X10.  [encode] and [decode] load the engine on demand.  In a process
    where nothing is loaded and [load] succeeds, [encode] initialises
    the engine and answers with the new front-end's tokenizer; a
    [decode] after it finds the engine loaded, adds only the [load] call
    to the trace, and uses the same front-end. *)
Theorem encode_then_decode_load_once (st st1 : State)
    (h : CosyVoiceModel * option CosyVoiceFrontEnd)
    (text : string) (ids : list Z) :
  cls_model st = None ->
  load ext st = (inr h, st1) ->
  exists fe,
    snd h = Some fe /\
    encode ext tokenizer_encode text st = (tokenizer_encode fe text, st1) /\
    trace st1 =
      trace st ++
      EvLoad :: init_events (model_dir st) (device st) (dtype st) /\
    decode ext tokenizer_decode ids st1 =
      (tokenizer_decode fe ids, set_trace (trace st1 ++ [EvLoad]) st1).
Proof.
  intros Hc Hl. destruct (load_fresh_result _ _ _ Hc Hl) as [Hh Hst].
  eexists. split; [rewrite Hh; reflexivity|].
  split; [|split].
  - unfold encode. unfold bind at 1. rewrite Hl. rewrite Hst. reflexivity.
  - rewrite Hst. reflexivity.
  - unfold decode. unfold bind at 1.
    assert (Hm : cls_model st1 = Some (fst h)).
    { rewrite Hst, Hh. reflexivity. }
    rewrite (load_loaded _ _ Hm). rewrite Hst. reflexivity.
Qed.

End TokenizerFacts.

(** ** Beyond the claims: the batch executor *)

Lemma run_cache_hit (segments : list TTSSegment) (ctx : TTSPipelineContext)
    (st : State) (v : list NP_AUDIO) :
  cache st !! cache_key ext segments ctx = Some v ->
  generate_batch_stream ext segments ctx st = (inr [v], st).
Proof.
  intros Hhit. unfold generate_batch_stream, get_cache, bind, get, ret.
  simpl. rewrite Hhit. reflexivity.
Qed.

(** The loop changes nothing but the trace, whatever the engine does. *)
Lemma synth_loop_frame (f : InferFunc) (seed : Z) (ctx : TTSPipelineContext)
    (st : State) (segments : list TTSSegment) :
  forall results,
    exists evs r,
      forall t,
        synth_loop ext f seed ctx segments results (set_trace t st) =
        (r, set_trace (t ++ evs) st).
Proof.
  induction segments as [|seg rest IH]; intros results.
  - exists [], (inr results). intros t. simpl. rewrite app_nil_r.
    reflexivity.
  - cbn [synth_loop]. destruct (ctx_stop ctx (length results)).
    { exists [], (inr results). intros t. rewrite app_nil_r. reflexivity. }
    destruct (seeded_call f seed (seg_text seg) st) as (evs1 & _ & H1).
    destruct (infer_result ext st f seed (seg_text seg)) as [e|out].
    + exists evs1, (inl e). intros t. unfold bind. rewrite H1. reflexivity.
    + destruct (IH (results ++ [(sr, out)])) as (evs2 & r & H2).
      exists (evs1 ++ evs2), r. intros t. unfold bind. rewrite H1, H2.
      rewrite app_assoc. reflexivity.
Qed.

(** Every way a run can end after a cache miss. *)
Lemma run_miss_outcome (segments : list TTSSegment)
    (ctx : TTSPipelineContext) (st : State) :
  cache st !! cache_key ext segments ctx = None ->
  let st1 := snd (load ext st) in
  let key := cache_key ext segments ctx in
  (exists e evs,
     generate_batch_stream ext segments ctx st =
     (inl e, set_trace (trace st1 ++ evs) st1)) \/
  (exists results evs,
     generate_batch_stream ext segments ctx st =
     (inr [results],
      set_trace (trace st1 ++ evs ++ [EvSetCache key results])
        (set_cache_map (<[key := results]> (cache st1)) st1))).
Proof.
  intros Hmiss.
  set (r := generate_batch_stream ext segments ctx st).
  assert (Hr : r = generate_batch_stream ext segments ctx st) by reflexivity.
  clearbody r. unfold generate_batch_stream, get_cache in Hr.
  unfold bind at 1 2 in Hr. unfold get, ret in Hr. simpl in Hr.
  rewrite Hmiss in Hr. unfold bind at 1 in Hr.
  destruct (load ext st) as [[e|h] st1]; simpl.
  { left. exists e, []. rewrite app_nil_r, set_trace_id. exact Hr. }
  destruct segments as [|seg0 rest].
  { left. eexists _, []. rewrite app_nil_r, set_trace_id. exact Hr. }
  destruct (seg_spk seg0) as [spk|].
  2:{ left. eexists _, []. rewrite app_nil_r, set_trace_id. exact Hr. }
  unfold bind at 1 in Hr. unfold lift in Hr.
  destruct (select_infer_func ext spk _ _) as [e|f].
  { left. exists e, []. rewrite app_nil_r, set_trace_id. exact Hr. }
  destruct (synth_loop_frame f (seg_infer_seed seg0) ctx st1 (seg0 :: rest) [])
    as (evs & r' & Hloop).
  specialize (Hloop (trace st1)). rewrite set_trace_id in Hloop.
  unfold bind at 1 in Hr. rewrite Hloop in Hr. destruct r' as [e|results].
  - left. exists e, evs. exact Hr.
  - right. exists results, evs. rewrite Hr.
    unfold set_cache, bind, modify, log. simpl.
    rewrite <- app_assoc. reflexivity.
Qed.

(** X11.  The generator yields exactly once whenever it does not raise,
    and [generate_batch] returns that one value; the two fail together,
    with the same error. *)
Theorem stream_yields_exactly_once (segments : list TTSSegment)
    (ctx : TTSPipelineContext) (st : State) :
  match generate_batch_stream ext segments ctx st with
  | (inr ys, st') =>
      exists y, ys = [y] /\
                generate_batch ext segments ctx st = (inr y, st')
  | (inl e, st') => generate_batch ext segments ctx st = (inl e, st')
  end.
Proof.
  destruct (cache st !! cache_key ext segments ctx) as [v|] eqn:Hc.
  - rewrite (run_cache_hit _ _ _ _ Hc). exists v. split; [reflexivity|].
    apply generate_batch_of_stream, run_cache_hit, Hc.
  - destruct (run_miss_outcome segments ctx st Hc)
      as [(e & evs & H)|(results & evs & H)]; rewrite H.
    + apply generate_batch_of_stream. exact H.
    + exists results. split; [reflexivity|].
      apply generate_batch_of_stream. exact H.
Qed.

(** X12.  A run writes to the cache only when it returns, and only under
    the key of its own batch and context: every other key keeps its
    entry, a run that raises leaves the whole cache as it was, and after
    a run that returns the cache holds the returned list under the
    key. *)
Theorem cache_written_only_on_success (segments : list TTSSegment)
    (ctx : TTSPipelineContext) (st : State) :
  let key := cache_key ext segments ctx in
  let r := generate_batch_stream ext segments ctx st in
  (forall k, k <> key -> cache (snd r) !! k = cache st !! k) /\
  match fst r with
  | inl _ => cache (snd r) = cache st
  | inr ys => exists y, ys = [y] /\ cache (snd r) !! key = Some y
  end.
Proof.
  destruct (cache st !! cache_key ext segments ctx) as [v|] eqn:Hc.
  - rewrite (run_cache_hit _ _ _ _ Hc). simpl. split; [reflexivity|].
    exists v. auto.
  - pose proof (load_cache st (snd (load ext st)) (fst (load ext st))) as Hl.
    rewrite <- surjective_pairing in Hl. specialize (Hl eq_refl).
    destruct (run_miss_outcome segments ctx st Hc)
      as [(e & evs & H)|(results & evs & H)]; rewrite H; simpl.
    + split; [intros k _; rewrite Hl; reflexivity|exact Hl].
    + split.
      * intros k Hk. rewrite lookup_insert_ne by congruence.
        rewrite Hl. reflexivity.
      * exists results. split; [reflexivity|apply lookup_insert_eq].
Qed.

(** X13.  A batch that returned is replayed from the cache: running it
    again in the state it left returns the same list and changes
    nothing, so neither [load] nor the engine is called and the
    cancellation flag is not read. *)
Theorem rerun_is_served_from_cache (segments : list TTSSegment)
    (ctx : TTSPipelineContext) (st st' : State) (ys : list (list NP_AUDIO)) :
  generate_batch_stream ext segments ctx st = (inr ys, st') ->
  generate_batch_stream ext segments ctx st' = (inr ys, st').
Proof.
  intros H.
  destruct (cache st !! cache_key ext segments ctx) as [v|] eqn:Hc.
  - rewrite (run_cache_hit _ _ _ _ Hc) in H. injection H as <- <-.
    apply run_cache_hit, Hc.
  - destruct (run_miss_outcome segments ctx st Hc)
      as [(e & evs & H')|(results & evs & H')]; rewrite H' in H;
      [discriminate|].
    injection H as <- <-. apply run_cache_hit. simpl.
    apply lookup_insert_eq.
Qed.

(** X15.  An empty batch that misses the cache still loads the engine:
    the emptiness is noticed after [load], as an index error (or as the
    error of [load], if that fails). *)
Theorem empty_batch_loads_then_raises (ctx : TTSPipelineContext) (st : State) :
  cache st !! cache_key ext [] ctx = None ->
  generate_batch_stream ext [] ctx st =
  (match fst (load ext st) with
   | inl e => inl e
   | inr _ => inl (IndexError "list index out of range")
   end, snd (load ext st)).
Proof.
  intros Hmiss. unfold generate_batch_stream, get_cache.
  unfold bind at 1 2. unfold get, ret. simpl. rewrite Hmiss.
  unfold bind. destruct (load ext st) as [[e|h] st1]; reflexivity.
Qed.

Lemma synth_loop_sound (f : InferFunc) (seed : Z) (ctx : TTSPipelineContext)
    (st0 : State) (segments : list TTSSegment) :
  forall results (rs : list NP_AUDIO) t (st' : State),
    synth_loop ext f seed ctx segments results (set_trace t st0) =
      (inr rs, st') ->
    exists outs,
      rs = results ++ List.map (pair sr) outs /\
      Forall2
        (fun seg out => infer_result ext st0 f seed (seg_text seg) = inr out)
        (take (length outs) segments) outs /\
      length outs <= length segments /\
      (forall i, i < length outs ->
                 ctx_stop ctx (length results + i) = false) /\
      (length outs < length segments ->
       ctx_stop ctx (length results + length outs) = true).
Proof.
  induction segments as [|seg rest IH]; intros results rs t st' H.
  - simpl in H. injection H as <- _. exists []. simpl.
    rewrite app_nil_r. repeat split; try constructor; intros; lia.
  - cbn [synth_loop] in H.
    destruct (ctx_stop ctx (length results)) eqn:Hstop.
    { injection H as <- _. exists []. simpl. rewrite app_nil_r.
      repeat split; try constructor; try (intros; lia).
      intros _. rewrite Nat.add_0_r. exact Hstop. }
    destruct (seeded_call f seed (seg_text seg) st0) as (evs1 & _ & H1).
    unfold bind in H. rewrite H1 in H.
    destruct (infer_result ext st0 f seed (seg_text seg)) as [e|out] eqn:Hout;
      [discriminate|].
    destruct (IH _ _ _ _ H) as (outs & -> & HF & Hlen & Hrun & Hend).
    rewrite length_app in Hrun, Hend. simpl in Hrun, Hend.
    exists (out :: outs). simpl. split; [rewrite <- app_assoc; reflexivity|].
    split; [constructor; assumption|]. split; [lia|]. split.
    + intros [|i] Hi.
      * rewrite Nat.add_0_r. exact Hstop.
      * replace (length results + S i) with (length results + 1 + i) by lia.
        apply Hrun. lia.
    + intros Hlt.
      replace (length results + S (length outs))
        with (length results + 1 + length outs) by lia.
      apply Hend. lia.
Qed.

(** X16.  Whatever a run past the cache probe returns is the synthesis of
    an initial part of the batch: result [i] is the pair of 22050 and the
    output of the seeded inference call on the text of segment [i], the
    flag read false before each of these segments, and if segments are
    left over the flag read true at that point.  In particular there are
    never more results than segments. *)
Theorem returned_results_are_a_synthesized_prefix
    (segments : list TTSSegment) (ctx : TTSPipelineContext) (st st1 st' : State)
    (h : CosyVoiceModel * option CosyVoiceFrontEnd)
    (seg0 : TTSSegment) (spk : TTSSpeaker) (f : InferFunc)
    (results : list NP_AUDIO) :
  cache st !! cache_key ext segments ctx = None ->
  load ext st = (inr h, st1) ->
  head segments = Some seg0 ->
  seg_spk seg0 = Some spk ->
  select_infer_func ext spk (seg_emotion seg0)
    (instruct_text_of (seg_emotion seg0) (seg_prompt2 seg0) (gender spk))
    = inr f ->
  generate_batch_stream ext segments ctx st = (inr [results], st') ->
  exists outs,
    results = List.map (pair sr) outs /\
    Forall2
      (fun seg out =>
         infer_result ext st1 f (seg_infer_seed seg0) (seg_text seg) = inr out)
      (take (length outs) segments) outs /\
    length results <= length segments /\
    (forall i, i < length results -> ctx_stop ctx i = false) /\
    (length results < length segments ->
     ctx_stop ctx (length results) = true).
Proof.
  intros Hmiss Hload Hhd Hspk Hsel Hrun.
  rewrite (run_after_load _ _ _ _ _ _ _ Hmiss Hload Hhd Hspk) in Hrun.
  rewrite Hsel in Hrun. unfold bind at 1 in Hrun. unfold lift in Hrun.
  unfold bind at 1 in Hrun.
  destruct (synth_loop ext f (seg_infer_seed seg0) ctx segments [] st1)
    as [[e|rs] st2] eqn:Hloop; [discriminate|].
  injection Hrun as <- _.
  rewrite <- (set_trace_id st1) in Hloop.
  destruct (synth_loop_sound _ _ _ _ _ _ _ _ _ Hloop)
    as (outs & -> & HF & Hlen & Hfalse & Htrue).
  exists outs. simpl in *. rewrite length_map.
  repeat split; assumption.
Qed.

(** X17.  With no cancellation and an engine that returns on every
    segment, a run past the cache probe returns one result per segment,
    in order, and stores the full list in the cache. *)
Theorem uncancelled_batch_is_complete
    (segments : list TTSSegment) (ctx : TTSPipelineContext) (st st1 : State)
    (h : CosyVoiceModel * option CosyVoiceFrontEnd)
    (seg0 : TTSSegment) (spk : TTSSpeaker) (f : InferFunc)
    (outs : list Tensor) :
  cache st !! cache_key ext segments ctx = None ->
  load ext st = (inr h, st1) ->
  head segments = Some seg0 ->
  seg_spk seg0 = Some spk ->
  select_infer_func ext spk (seg_emotion seg0)
    (instruct_text_of (seg_emotion seg0) (seg_prompt2 seg0) (gender spk))
    = inr f ->
  (forall i, i < length segments -> ctx_stop ctx i = false) ->
  Forall2
    (fun seg out =>
       infer_result ext st1 f (seg_infer_seed seg0) (seg_text seg) = inr out)
    segments outs ->
  let results := List.map (pair sr) outs in
  exists st',
    generate_batch ext segments ctx st = (inr results, st') /\
    length results = length segments /\
    cache st' = <[cache_key ext segments ctx := results]> (cache st).
Proof.
  intros Hmiss Hload Hhd Hspk Hsel Hrun Houts results.
  pose proof (Forall2_length _ _ _ Houts) as Hlen.
  destruct (synth_loop_prefix f (seg_infer_seed seg0) ctx st1
              segments [] outs Houts [])
    as (evs & _ & Hloop).
  { intros i Hi. simpl. apply Hrun. exact Hi. }
  { left. reflexivity. }
  rewrite app_nil_r in Hloop.
  assert (Hstream :
    generate_batch_stream ext segments ctx st =
    (inr [results],
     set_trace ((trace st1 ++ evs) ++
                [EvSetCache (cache_key ext segments ctx) results])
       (set_cache_map (<[cache_key ext segments ctx := results]> (cache st1))
          st1))).
  { rewrite (run_after_load _ _ _ _ _ _ _ Hmiss Hload Hhd Hspk).
    rewrite Hsel. unfold bind at 1. unfold lift.
    unfold bind at 1. rewrite <- (set_trace_id st1) at 1. rewrite Hloop.
    reflexivity. }
  eexists. split; [apply generate_batch_of_stream; exact Hstream|].
  split; [unfold results; rewrite length_map; lia|].
  simpl. rewrite (load_cache _ _ _ Hload). reflexivity.
Qed.

Lemma run_miss_unfold (segments : list TTSSegment)
    (ctx : TTSPipelineContext) (st : State) :
  cache st !! cache_key ext segments ctx = None ->
  generate_batch_stream ext segments ctx st =
  match load ext st with
  | (inl e, st1) => (inl e, st1)
  | (inr _, st1) =>
      match segments with
      | [] => (inl (IndexError "list index out of range"), st1)
      | seg0 :: _ =>
          match seg_spk seg0 with
          | None => (inl (ValueError "spk is None"), st1)
          | Some spk =>
              match
                select_infer_func ext spk (seg_emotion seg0)
                  (instruct_text_of (seg_emotion seg0) (seg_prompt2 seg0)
                     (gender spk))
              with
              | inl e => (inl e, st1)
              | inr f =>
                  match
                    synth_loop ext f (seg_infer_seed seg0) ctx segments [] st1
                  with
                  | (inl e, st2) => (inl e, st2)
                  | (inr results, st2) =>
                      (inr [results],
                       snd (set_cache ext segments ctx results st2))
                  end
              end
          end
      end
  end.
Proof.
  intros Hmiss. unfold generate_batch_stream, get_cache.
  unfold bind at 1 2. unfold get, ret. simpl. rewrite Hmiss.
  unfold bind at 1. destruct (load ext st) as [[e|h] st1]; [reflexivity|].
  destruct segments as [|seg0 rest]; [reflexivity|].
  destruct (seg_spk seg0) as [spk|]; [|reflexivity].
  unfold bind at 1. unfold lift.
  destruct (select_infer_func ext spk _ _) as [e|f]; [reflexivity|].
  unfold bind at 1.
  destruct (synth_loop ext f (seg_infer_seed seg0) ctx (seg0 :: rest) [] st1)
    as [[e|results] st2]; reflexivity.
Qed.

Lemma synth_loop_texts (f : InferFunc) (seed : Z) (ctx : TTSPipelineContext)
    (segments segments' : list TTSSegment) :
  List.map seg_text segments = List.map seg_text segments' ->
  forall results (st : State),
    synth_loop ext f seed ctx segments results st =
    synth_loop ext f seed ctx segments' results st.
Proof.
  revert segments'.
  induction segments as [|a segments IH]; intros [|b segments'] H;
    try discriminate; intros results st.
  - reflexivity.
  - simpl in H. injection H as Ht Hrest. cbn [synth_loop].
    destruct (ctx_stop ctx (length results)); [reflexivity|].
    rewrite Ht. unfold bind.
    destruct (SeedContext ext seed _ st) as [[e|out] st1]; [reflexivity|].
    apply IH. exact Hrest.
Qed.

(** X18.  Only the first segment's speaker, emotion, secondary prompt and
    seed are used: two batches with the same first segment and the same
    texts, both missing the cache, end the same way, with the same
    results or the same error, whatever the later segments say about
    speaker, emotion or seed. *)
Theorem later_segments_metadata_ignored
    (segments segments' : list TTSSegment) (ctx : TTSPipelineContext)
    (st : State) :
  head segments = head segments' ->
  List.map seg_text segments = List.map seg_text segments' ->
  cache st !! cache_key ext segments ctx = None ->
  cache st !! cache_key ext segments' ctx = None ->
  fst (generate_batch_stream ext segments ctx st) =
  fst (generate_batch_stream ext segments' ctx st).
Proof.
  intros Hhd Htexts Hm Hm'.
  rewrite (run_miss_unfold _ _ _ Hm), (run_miss_unfold _ _ _ Hm').
  destruct (load ext st) as [[e|h] st1]; [reflexivity|].
  destruct segments as [|seg0 rest], segments' as [|seg0' rest'];
    try discriminate; [reflexivity|].
  cbn [head] in Hhd. injection Hhd as <-.
  destruct (seg_spk seg0) as [spk|]; [|reflexivity].
  destruct (select_infer_func ext spk _ _) as [e|f]; [reflexivity|].
  rewrite (synth_loop_texts f _ ctx _ _ Htexts [] st1).
  destruct (synth_loop ext f (seg_infer_seed seg0) ctx (seg0 :: rest') [] st1)
    as [[e|rs] st2]; reflexivity.
Qed.

End Facts.

(** * The concrete instance *)

(** ** The model at work *)

Example is_female_examples :
  is_female "female" = true /\ is_female "中文女" = true /\
  is_female "male" = false /\ is_female "Female" = false /\
  is_female "young female" = false.
Proof. repeat split; reflexivity. Qed.

Example instruct_text_examples :
  instruct_text_of "happy" "slow" "女" = "female voice. happy" /\
  instruct_text_of "" "slow" "male" = "male voice. slow" /\
  instruct_text_of "" "" "male" = "male voice. ".
Proof. repeat split; reflexivity. Qed.

(** An uncancelled batch: one result per segment, in order, each at
    22050 Hz; the toy engine returns the length of the text. *)
Example full_batch_runs :
  fst (generate_batch Demo.ext (Demo.batch5 Demo.spk_both "calm")
         Demo.ctx_run Demo.st0) =
  inr [(22050%Z, [3%Q]); (22050%Z, [3%Q]); (22050%Z, [5%Q]);
       (22050%Z, [4%Q]); (22050%Z, [4%Q])].
Proof. reflexivity. Qed.

(** The events of a cancelled batch, in program order. *)
Example cancelled_batch_trace :
  trace (snd (generate_batch_stream Demo.ext
                (Demo.batch5 Demo.spk_both "calm")
                (Demo.ctx_cancel_after 2) Demo.st0)) =
  EvLoad :: init_events "models/CosyVoice_300M" "cuda" "float16" ++
  [ EvFrontend Instruct "one"; EvModelInference;
    EvFrontend Instruct "two"; EvModelInference;
    EvSetCache "ctx|one|two|three|four|five"
      [(22050%Z, [3%Q]); (22050%Z, [3%Q])] ].
Proof. reflexivity. Qed.

(** The speaker whose own-id token is empty is synthesized zero-shot,
    although an alias id holds an embedding. *)
Example shadowed_speaker_trace :
  trace (snd (generate_batch_stream Demo.ext
                [Demo.seg "one" (Some Demo.spk_shadowed) "calm"]
                Demo.ctx_run Demo.st0)) =
  EvLoad :: init_events "models/CosyVoice_300M" "cuda" "float16" ++
  [ EvFrontend ZeroShot "one"; EvModelInference;
    EvSetCache "ctx|one" [(22050%Z, [3%Q])] ].
Proof. reflexivity. Qed.

(** Under the compatible flag the guarded operations run the engine. *)
Example guards_silent_examples :
  fst (inference_cross_lingual Demo.ext ["hi"] [1 # 2]
         (Demo.st_loaded Demo.fe_plain)) = inr [2%Q] /\
  fst (inference_instruct Demo.ext ["hi"; "you"] [1; 2]%Q "male voice. "
         (Demo.st_loaded Demo.fe_instruct)) = inr [2%Q; 3%Q].
Proof. split; reflexivity. Qed.

(** An instance that was constructed before another one loaded the
    engine sees the shared handle through [load] but keeps its own
    attributes unset, so that its inference raises. *)
Example stale_instance_example :
  let st := set_self_frontend None
              (set_self_model None (Demo.st_loaded Demo.fe_instruct)) in
  fst (load Demo.ext st) = inr (Demo.model0, Some Demo.fe_instruct) /\
  fst (generate_batch Demo.ext (Demo.batch5 Demo.spk_both "calm")
         Demo.ctx_run st) =
  inl (AttributeError "'NoneType' object has no attribute 'instruct'").
Proof. split; reflexivity. Qed.

(** [postprocess] on a tensor of two samples: what is kept is padded with
    3200 zeros. *)
Example postprocess_example :
  exists w,
    postprocess_default Demo.ext [9 # 10; -(1 # 4)] = inr w /\
    length w = 3202 /\
    nth_error w 2 = Some 0%Q.
Proof.
  eexists. split; [vm_compute; reflexivity|].
  split; vm_compute; reflexivity.
Qed.

(** ** The claims at the instance *)

Lemma instruct_selected_when_embedding_resolves_witness :
  spk_to_embedding Demo.spk_both = Some [1; 2]%Q /\
  usable_clip "calm" Demo.clip_calm /\
  In Demo.clip_calm (refs Demo.spk_both) /\
  select_infer_func Demo.ext Demo.spk_both "calm" "female voice. calm" =
    inr (PartialInstruct [1; 2]%Q "female voice. calm").
Proof.
  split; [reflexivity|].
  split; [split; [reflexivity|discriminate]|].
  split; [left; reflexivity|].
  destruct (instruct_selected_when_embedding_resolves
              unit string Z Demo.ext Demo.spk_both
              "calm" "female voice. calm") as [H _].
  exact (H [1; 2]%Q eq_refl).
Defined.

(** C1, as stated, fails: a speaker whose embedding resolves and whose
    clip for the requested emotion cannot be decoded gets no binding at
    all; the run raises the decoder's error in the state [load] left. *)
Lemma embedding_with_undecodable_clip_counterexample :
  spk_to_embedding DemoMore.spk_embedding_broken_clip = Some [1; 2]%Q /\
  select_infer_func Demo.ext DemoMore.spk_embedding_broken_clip "calm"
    (instruct_text_of "calm" ""
       (gender DemoMore.spk_embedding_broken_clip)) =
    inl Demo.decode_failure /\
  generate_batch_stream Demo.ext
    (Demo.batch5 DemoMore.spk_embedding_broken_clip "calm")
    Demo.ctx_run Demo.st0 = (inl Demo.decode_failure, Demo.st1) /\
  ~ (forall e,
       spk_to_embedding DemoMore.spk_embedding_broken_clip = Some e ->
       exists it,
         select_infer_func Demo.ext DemoMore.spk_embedding_broken_clip "calm"
           (instruct_text_of "calm" ""
              (gender DemoMore.spk_embedding_broken_clip)) =
         inr (PartialInstruct e it)).
Proof.
  split; [reflexivity|]. split; [vm_compute; reflexivity|].
  split; [vm_compute; reflexivity|].
  intros H. destruct (H [1; 2]%Q eq_refl) as [it Hit].
  vm_compute in Hit. discriminate Hit.
Qed.

Lemma missing_conditioning_raises_witness :
  (exists e,
     ConditioningError e /\
     generate_batch_stream Demo.ext (Demo.batch5 Demo.spk_calm_only "angry")
       Demo.ctx_run Demo.st0 = (inl e, Demo.st1) /\
     generate_batch Demo.ext (Demo.batch5 Demo.spk_calm_only "angry")
       Demo.ctx_run Demo.st0 = (inl e, Demo.st1)) /\
  (exists e,
     ConditioningError e /\
     generate_batch_stream Demo.ext
       (Demo.batch5 Demo.spk_no_transcript "angry")
       Demo.ctx_run Demo.st0 = (inl e, Demo.st1) /\
     generate_batch Demo.ext (Demo.batch5 Demo.spk_no_transcript "angry")
       Demo.ctx_run Demo.st0 = (inl e, Demo.st1)).
Proof.
  split.
  - destruct (missing_conditioning_raises unit string Z Demo.ext
                (Demo.batch5 Demo.spk_calm_only "angry") Demo.ctx_run
                Demo.st0 Demo.st1 Demo.h0
                (Demo.seg "one" (Some Demo.spk_calm_only) "angry"))
      as (e & Hs & Hb & _ & _ & Hc).
    + vm_compute; reflexivity.
    + vm_compute; reflexivity.
    + reflexivity.
    + intros spk [= <-]. split; [reflexivity|].
      intros clip [<-|[]] [He _]. discriminate He.
    + exists e. split; [|split; assumption].
      apply Hc. intros spk clip [= <-] [<-|[]]. discriminate.
  - destruct (missing_conditioning_raises unit string Z Demo.ext
                (Demo.batch5 Demo.spk_no_transcript "angry") Demo.ctx_run
                Demo.st0 Demo.st1 Demo.h0
                (Demo.seg "one" (Some Demo.spk_no_transcript) "angry"))
      as (e & Hs & Hb & _ & Hc & _).
    + vm_compute; reflexivity.
    + vm_compute; reflexivity.
    + reflexivity.
    + intros spk [= <-]. split; [reflexivity|].
      intros clip [<-|[]] [_ Ht]. apply Ht. reflexivity.
    + exists e. split; [|split; assumption].
      apply Hc. intros spk [= <-]. eexists. vm_compute. reflexivity.
Defined.

(** C2, as stated, fails: a speaker without embedding whose clip for the
    requested emotion has an empty transcript and cannot be decoded makes
    the run raise the decoder's error, which is no conditioning error. *)
Lemma undecodable_clip_without_transcript_counterexample :
  spk_to_embedding DemoMore.spk_broken_no_transcript = None /\
  (forall clip,
     In clip (refs DemoMore.spk_broken_no_transcript) ->
     ~ usable_clip "angry" clip) /\
  generate_batch_stream Demo.ext
    (Demo.batch5 DemoMore.spk_broken_no_transcript "angry")
    Demo.ctx_run Demo.st0 = (inl Demo.decode_failure, Demo.st1) /\
  generate_batch Demo.ext
    (Demo.batch5 DemoMore.spk_broken_no_transcript "angry")
    Demo.ctx_run Demo.st0 = (inl Demo.decode_failure, Demo.st1) /\
  ~ ConditioningError Demo.decode_failure.
Proof.
  split; [reflexivity|].
  split; [intros clip [<-|[]] [_ Ht]; apply Ht; reflexivity|].
  split; [vm_compute; reflexivity|]. split; [vm_compute; reflexivity|].
  intros [H|H]; discriminate H.
Qed.

Lemma cancellation_keeps_partial_results_witness :
  exists st',
    generate_batch_stream Demo.ext (Demo.batch5 Demo.spk_both "calm")
      (Demo.ctx_cancel_after 2) Demo.st0 =
      (inr [[(sr, [3%Q]); (sr, [3%Q])]], st') /\
    generate_batch Demo.ext (Demo.batch5 Demo.spk_both "calm")
      (Demo.ctx_cancel_after 2) Demo.st0 =
      (inr [(sr, [3%Q]); (sr, [3%Q])], st') /\
    cache st' !! "ctx|one|two|three|four|five" =
      Some [(sr, [3%Q]); (sr, [3%Q])].
Proof.
  destruct (cancellation_keeps_partial_results unit string Z Demo.ext
              (Demo.batch5 Demo.spk_both "calm") (Demo.ctx_cancel_after 2)
              Demo.st0 Demo.st1 Demo.h0
              (Demo.seg "one" (Some Demo.spk_both) "calm") Demo.spk_both
              (PartialInstruct [1; 2]%Q "female voice. calm")
              2 [[3%Q]; [3%Q]])
    as (st' & Hs & Hb & _ & Hc & _).
  - reflexivity.
  - reflexivity.
  - reflexivity.
  - reflexivity.
  - reflexivity.
  - simpl. lia.
  - intros [|[|i]] Hi; [reflexivity|reflexivity|lia].
  - reflexivity.
  - repeat constructor.
  - exists st'. split; [exact Hs|]. split; [exact Hb|].
    rewrite Hc. apply lookup_insert_eq.
Defined.

Lemma cache_hit_short_circuits_witness :
  generate_batch_stream Demo.ext [Demo.seg "one" None "calm"] Demo.ctx_run
    Demo.st_cached = (inr [Demo.cached_value], Demo.st_cached) /\
  generate_batch Demo.ext [Demo.seg "one" None "calm"] Demo.ctx_run
    Demo.st_cached = (inr Demo.cached_value, Demo.st_cached).
Proof.
  apply (cache_hit_short_circuits unit string Z Demo.ext
           [Demo.seg "one" None "calm"] Demo.ctx_run Demo.st_cached
           Demo.cached_value).
  reflexivity.
Defined.

Lemma load_idempotent_witness :
  load Demo.ext Demo.st0 = (inr Demo.h0, Demo.st1) /\
  load Demo.ext Demo.st1 =
    (inr Demo.h0, set_trace (trace Demo.st1 ++ [EvLoad]) Demo.st1) /\
  trace Demo.st1 =
    EvLoad :: init_events "models/CosyVoice_300M" "cuda" "float16".
Proof.
  split; [reflexivity|].
  exact (load_idempotent unit string Z Demo.ext Demo.st0 Demo.st1 Demo.h0
           eq_refl).
Defined.

(** C6, as stated, fails: a gender string that contains "female" without
    being equal to it gets the male tag, where the spec's reading gives
    the female one. *)
Lemma gender_mentioning_female_counterexample :
  occurs_in "female" (gender Demo.spk_latin) /\
  select_infer_func Demo.ext Demo.spk_latin "calm"
    (instruct_text_of "calm" "" (gender Demo.spk_latin)) =
    inr (PartialInstruct [1; 2]%Q "male voice. calm") /\
  spec_instruct_text "calm" "" (gender Demo.spk_latin) = "female voice. calm" /\
  instruct_text_of "calm" "" (gender Demo.spk_latin) <>
    spec_instruct_text "calm" "" (gender Demo.spk_latin).
Proof.
  split; [exists "young "%string, ""%string; reflexivity|].
  split; [reflexivity|]. split; [reflexivity|]. discriminate.
Qed.

Lemma instruct_text_gender_prefix_witness :
  exists base : string,
    ("calm" <> "" -> base = "calm") /\
    ("calm" = "" -> "" <> "" -> base = "") /\
    ("calm" = "" -> "" = "" -> base = "") /\
    ("female" = "female" \/ occurs_in "女" "female" ->
     "female voice. calm" = ("female voice. " ++ base)%string) /\
    (~ ("female" = "female" \/ occurs_in "女" "female") ->
     "female voice. calm" = ("male voice. " ++ base)%string).
Proof.
  apply (instruct_text_gender_prefix unit string Z Demo.ext Demo.spk_both
           (Demo.seg "one" (Some Demo.spk_both) "calm") [1; 2]%Q
           "female voice. calm").
  reflexivity.
Defined.

Lemma mode_guards_witness :
  (exists e,
     UnsupportedModeError "models/CosyVoice_300M" e /\
     inference_cross_lingual Demo.ext ["hi"] [1 # 2] 
       (Demo.st_loaded Demo.fe_instruct) =
       (inl e, Demo.st_loaded Demo.fe_instruct)) /\
  (exists e,
     UnsupportedModeError "models/CosyVoice_300M" e /\
     inference_instruct Demo.ext ["hi"] [1; 2]%Q "male voice. "
       (Demo.st_loaded Demo.fe_plain) =
       (inl e, Demo.st_loaded Demo.fe_plain)).
Proof.
  split.
  - exact (proj1 (mode_guards unit string Z Demo.ext
                    (Demo.st_loaded Demo.fe_instruct) Demo.fe_instruct
                    ["hi"] [1 # 2] [1; 2]%Q "male voice. " eq_refl)).
  - exact (proj1 (mode_guards unit string Z Demo.ext
                    (Demo.st_loaded Demo.fe_plain) Demo.fe_plain
                    ["hi"] [1 # 2] [1; 2]%Q "male voice. " eq_refl)).
Defined.

(** C8, as stated, fails: the waveform bound as [prompt_speech_16k] is
    the normalized clip, two samples here, while its postprocessed form
    is rescaled to the 0.8 peak and carries 3200 samples of trailing
    silence. *)
Lemma zero_shot_prompt_not_postprocessed_counterexample :
  exists w w',
    select_infer_func Demo.ext Demo.spk_calm_only "calm" "male voice. calm" =
      inr (PartialZeroShot "hello there" w) /\
    get_ref Demo.spk_calm_only (fun x => String.eqb (emotion x) "calm") =
      Some Demo.clip_calm /\
    spec_zero_shot_prompt Demo.ext Demo.clip_calm = inr w' /\
    length w = 2 /\ length w' = 3202 /\ w <> w'.
Proof.
  eexists _, _.
  split; [reflexivity|]. split; [reflexivity|].
  split; [vm_compute; reflexivity|].
  split; [reflexivity|]. split; [vm_compute; reflexivity|].
  intros H. apply (f_equal (@length Q)) in H. vm_compute in H. discriminate H.
Qed.

Lemma zero_shot_prompt_is_normalized_clip_witness :
  exists clip wav0 sr1,
    get_ref Demo.spk_calm_only (fun x => String.eqb (emotion x) "calm") =
      Some clip /\
    In clip (refs Demo.spk_calm_only) /\ emotion clip = "calm" /\
    "hello there" = text clip /\
    bytes_to_librosa_array Demo.ext (wav clip) (wav_sr clip) = inr wav0 /\
    normalize_audio Demo.ext (wav_sr clip, wav0) target_sr =
      inr (sr1, [90 # 100; 25 # 100]).
Proof.
  apply (zero_shot_prompt_is_normalized_clip unit string Z Demo.ext
           Demo.spk_calm_only "calm" "male voice. calm" "hello there"
           [90 # 100; 25 # 100]).
  reflexivity.
Defined.

Lemma inference_error_discards_batch_witness :
  exists st',
    generate_batch_stream Demo.ext (Demo.batch_boom Demo.spk_both)
      Demo.ctx_run Demo.st0 = (inl Demo.engine_failure, st') /\
    generate_batch Demo.ext (Demo.batch_boom Demo.spk_both)
      Demo.ctx_run Demo.st0 = (inl Demo.engine_failure, st') /\
    cache st' = cache Demo.st0.
Proof.
  destruct (inference_error_discards_batch unit string Z Demo.ext
              (Demo.batch_boom Demo.spk_both) Demo.ctx_run
              Demo.st0 Demo.st1 Demo.h0
              (Demo.seg "one" (Some Demo.spk_both) "calm")
              (Demo.seg "boom" (Some Demo.spk_both) "calm") Demo.spk_both
              (PartialInstruct [1; 2]%Q "female voice. calm")
              2 [[3%Q]; [3%Q]] Demo.engine_failure)
    as (st' & Hs & Hb & _ & Hc & _).
  - reflexivity.
  - reflexivity.
  - reflexivity.
  - reflexivity.
  - reflexivity.
  - intros i _. reflexivity.
  - repeat constructor.
  - reflexivity.
  - reflexivity.
  - exists st'. auto.
Defined.

Lemma first_token_record_decides_witness :
  get_token Demo.spk_shadowed "cosyvoice_instruct" =
    Some (Demo.tok [[3; 4]%Q]) /\
  spk_to_embedding Demo.spk_shadowed = None /\
  select_infer_func Demo.ext Demo.spk_shadowed "calm" "x" =
    inr (PartialZeroShot "hello there" [90 # 100; 25 # 100]) /\
  select_infer_func Demo.ext Demo.spk_shadowed "angry" "x" =
    inl (ValueError "spk_embedding is None").
Proof.
  split; [reflexivity|].
  destruct (first_token_record_decides unit string Z Demo.ext
              Demo.spk_shadowed [] ["cosyvoice_300m_instruct";
                                    "cosyvoice_instruct"]
              model_id (Demo.tok []))
    as [_ H].
  - reflexivity.
  - constructor.
  - reflexivity.
  - destruct (H eq_refl) as (Hnone & Hsel & _). split; [exact Hnone|].
    split; rewrite Hsel; reflexivity.
Defined.

(** C10, as stated, fails: with an empty first-found record and an
    undecodable clip for the requested emotion, the selection neither
    falls back to zero-shot nor fails with a conditioning error; it
    raises the decoder's error. *)
Lemma shadowed_speaker_undecodable_clip_counterexample :
  get_token DemoMore.spk_shadowed_broken_clip model_id = Some (Demo.tok []) /\
  get_token DemoMore.spk_shadowed_broken_clip "cosyvoice_instruct" =
    Some (Demo.tok [[3; 4]%Q]) /\
  spk_to_embedding DemoMore.spk_shadowed_broken_clip = None /\
  select_infer_func Demo.ext DemoMore.spk_shadowed_broken_clip "calm" "x" =
    inl Demo.decode_failure /\
  ~ match select_infer_func Demo.ext DemoMore.spk_shadowed_broken_clip
            "calm" "x" with
    | inr f => strategy_of f = ZeroShot
    | inl e => ConditioningError e
    end.
Proof.
  split; [reflexivity|]. split; [reflexivity|]. split; [reflexivity|].
  split; [vm_compute; reflexivity|].
  vm_compute. intros [H|H]; discriminate H.
Qed.

(** ** The further properties at the instance *)


Lemma cross_lingual_unusable_after_load_witness :
  inference_cross_lingual Demo.ext ["hi"] [1 # 2] Demo.st1 =
  (inl (ValueError
          "models/CosyVoice_300M do not support cross_lingual inference"),
   Demo.st1).
Proof.
  exact (cross_lingual_unusable_after_load unit string Z Demo.ext
           Demo.st0 Demo.st1 Demo.h0 ["hi"] [1 # 2] eq_refl eq_refl).
Defined.

Lemma reload_after_unload_is_fresh_witness :
  {| m_id := 3; m_device := "cuda"; m_dtype := "float16" |} <> Demo.model0 /\
  {| fe_id := 2; instruct := true; fe_device := "cuda" |} <>
    Demo.fe_instruct /\
  trace (snd (load Demo.ext
                (snd (unload (Demo.st_loaded Demo.fe_instruct))))) =
    EvTorchGC :: EvLoad ::
    init_events "models/CosyVoice_300M" "cuda" "float16".
Proof.
  destruct (reload_after_unload_is_fresh unit string Z Demo.ext
              (Demo.st_loaded Demo.fe_instruct)
              (snd (load Demo.ext
                      (snd (unload (Demo.st_loaded Demo.fe_instruct)))))
              Demo.model0
              {| m_id := 3; m_device := "cuda"; m_dtype := "float16" |}
              (Some {| fe_id := 2; instruct := true; fe_device := "cuda" |}))
    as (H1 & _ & _ & (fe' & Hfe & _ & Hfresh & _) & _ & _ & H2).
  - reflexivity.
  - simpl. lia.
  - vm_compute. reflexivity.
  - split; [exact H1|]. split.
    + injection Hfe as Hfe. rewrite Hfe. apply Hfresh. simpl. lia.
    + rewrite H2. vm_compute. reflexivity.
Defined.

Lemma inference_calls_in_order_witness :
  trace (snd (call_infer_func Demo.ext
                (PartialInstruct [1; 2]%Q "male voice. ") ["hi"; "you"]
                (Demo.st_loaded Demo.fe_instruct))) =
  [ EvFrontend Instruct "hi"; EvModelInference;
    EvFrontend Instruct "you"; EvModelInference ].
Proof.
  destruct (inference_calls_in_order unit string Z Demo.ext
              (PartialInstruct [1; 2]%Q "male voice. ") ["hi"; "you"]
              (Demo.st_loaded Demo.fe_instruct))
    as (_ & _ & H).
  destruct (H [2%Q; 3%Q]) as [_ Htr]; [vm_compute; reflexivity|].
  etransitivity; [exact Htr|vm_compute; reflexivity].
Defined.

Lemma stale_instance_cannot_synthesize_witness :
  cls_model DemoMore.st_stale = Some Demo.model0 /\
  exists attr,
    generate_batch_stream Demo.ext (Demo.batch5 Demo.spk_both "calm")
      Demo.ctx_run DemoMore.st_stale =
    (inl (AttributeError
            ("'NoneType' object has no attribute '" ++ attr ++ "'")),
     set_trace (trace DemoMore.st_stale ++ [EvLoad]) DemoMore.st_stale).
Proof.
  split; [reflexivity|].
  apply (stale_instance_cannot_synthesize unit string Z Demo.ext
           (Demo.batch5 Demo.spk_both "calm") Demo.ctx_run DemoMore.st_stale
           Demo.model0 (Demo.seg "one" (Some Demo.spk_both) "calm")
           Demo.spk_both (PartialInstruct [1; 2]%Q "female voice. calm"));
    reflexivity.
Defined.

Lemma encode_then_decode_load_once_witness :
  exists fe,
    snd Demo.h0 = Some fe /\
    encode Demo.ext DemoMore.tokenizer_encode "hi" Demo.st0 =
      (DemoMore.tokenizer_encode fe "hi", Demo.st1) /\
    trace Demo.st1 =
      trace Demo.st0 ++
      EvLoad :: init_events (model_dir Demo.st0) (device Demo.st0)
                  (dtype Demo.st0) /\
    decode Demo.ext DemoMore.tokenizer_decode [104; 105]%Z Demo.st1 =
      (DemoMore.tokenizer_decode fe [104; 105]%Z,
       set_trace (trace Demo.st1 ++ [EvLoad]) Demo.st1).
Proof.
  exact (encode_then_decode_load_once unit string Z Demo.ext
           DemoMore.tokenizer_encode DemoMore.tokenizer_decode
           Demo.st0 Demo.st1 Demo.h0 "hi" [104; 105]%Z eq_refl eq_refl).
Defined.

Lemma cache_written_only_on_success_witness :
  cache (snd (generate_batch_stream Demo.ext
                (Demo.batch5 Demo.spk_both "calm") Demo.ctx_run
                Demo.st_cached)) !! "ctx|one" =
  Some Demo.cached_value.
Proof.
  destruct (cache_written_only_on_success unit string Z Demo.ext
              (Demo.batch5 Demo.spk_both "calm") Demo.ctx_run Demo.st_cached)
    as [H _].
  etransitivity.
  - apply (H "ctx|one"). vm_compute. discriminate.
  - vm_compute. reflexivity.
Defined.

Lemma rerun_is_served_from_cache_witness :
  let st' := snd (generate_batch_stream Demo.ext
                    (Demo.batch5 Demo.spk_both "calm")
                    (Demo.ctx_cancel_after 2) Demo.st0) in
  generate_batch_stream Demo.ext (Demo.batch5 Demo.spk_both "calm")
    (Demo.ctx_cancel_after 2) st' =
  (inr [[(sr, [3%Q]); (sr, [3%Q])]], st').
Proof.
  intros st'.
  apply (rerun_is_served_from_cache unit string Z Demo.ext
           (Demo.batch5 Demo.spk_both "calm") (Demo.ctx_cancel_after 2)
           Demo.st0).
  vm_compute. reflexivity.
Defined.

Lemma empty_batch_loads_then_raises_witness :
  generate_batch_stream Demo.ext [] Demo.ctx_run Demo.st0 =
  (inl (IndexError "list index out of range"), Demo.st1).
Proof.
  exact (empty_batch_loads_then_raises unit string Z Demo.ext
           Demo.ctx_run Demo.st0 eq_refl).
Defined.

Lemma returned_results_are_a_synthesized_prefix_witness :
  exists outs : list Tensor,
    [(sr, [3%Q]); (sr, [3%Q])] = List.map (pair sr) outs /\
    ctx_stop (Demo.ctx_cancel_after 2) 2 = true.
Proof.
  destruct (returned_results_are_a_synthesized_prefix unit string Z Demo.ext
              (Demo.batch5 Demo.spk_both "calm") (Demo.ctx_cancel_after 2)
              Demo.st0 Demo.st1
              (snd (generate_batch_stream Demo.ext
                      (Demo.batch5 Demo.spk_both "calm")
                      (Demo.ctx_cancel_after 2) Demo.st0))
              Demo.h0 (Demo.seg "one" (Some Demo.spk_both) "calm")
              Demo.spk_both (PartialInstruct [1; 2]%Q "female voice. calm")
              [(sr, [3%Q]); (sr, [3%Q])])
    as (outs & H1 & _ & _ & _ & H5); try (vm_compute; reflexivity).
  exists outs. split; [exact H1|]. apply H5. simpl. lia.
Defined.

Lemma uncancelled_batch_is_complete_witness :
  exists st',
    generate_batch Demo.ext (Demo.batch5 Demo.spk_both "calm") Demo.ctx_run
      Demo.st0 =
    (inr [(sr, [3%Q]); (sr, [3%Q]); (sr, [5%Q]); (sr, [4%Q]); (sr, [4%Q])],
     st') /\
    cache st' !! "ctx|one|two|three|four|five" =
    Some [(sr, [3%Q]); (sr, [3%Q]); (sr, [5%Q]); (sr, [4%Q]); (sr, [4%Q])].
Proof.
  destruct (uncancelled_batch_is_complete unit string Z Demo.ext
              (Demo.batch5 Demo.spk_both "calm") Demo.ctx_run
              Demo.st0 Demo.st1 Demo.h0
              (Demo.seg "one" (Some Demo.spk_both) "calm") Demo.spk_both
              (PartialInstruct [1; 2]%Q "female voice. calm")
              [[3%Q]; [3%Q]; [5%Q]; [4%Q]; [4%Q]])
    as (st' & Hb & _ & Hc).
  - reflexivity.
  - reflexivity.
  - reflexivity.
  - reflexivity.
  - reflexivity.
  - intros i _. reflexivity.
  - repeat constructor.
  - exists st'. split; [exact Hb|]. rewrite Hc. apply lookup_insert_eq.
Defined.

Lemma later_segments_metadata_ignored_witness :
  fst (generate_batch_stream Demo.ext (Demo.batch5 Demo.spk_both "calm")
         Demo.ctx_run Demo.st0) =
  fst (generate_batch_stream Demo.ext DemoMore.batch5_mixed
         Demo.ctx_run Demo.st0).
Proof.
  apply (later_segments_metadata_ignored unit string Z Demo.ext
           (Demo.batch5 Demo.spk_both "calm") DemoMore.batch5_mixed
           Demo.ctx_run Demo.st0); vm_compute; reflexivity.
Defined.
